(** * cf-honox-vite: request routing and worker lifecycle core

    A shallow embedding of [src/utils.ts] and of the request and rebuild
    logic of [src/index.ts], with the properties the specification states
    about them.

    Conventions of the embedding.
    - A JavaScript string is a [string]; one character stands for one
      UTF-16 code unit.  URL pathnames and header names are ASCII.
    - [undefined] and [null] are [None].
    - A function that can throw returns [Exc A].
    - Platform objects ([URL], [Headers], [Request], [Response], Node's
      [IncomingMessage] and [ServerResponse]) are records; what the
      platform computes and the repository does not (URL parsing, glob
      matching, the file system, the emulator) is a field of [Platform]. *)

From stdpp Require Import gmap strings list.
From Stdlib Require Import Ascii ZArith Lia.

(** ** JavaScript strings *)

Module Js.

Definition is_slash (c : ascii) : bool := Ascii.eqb c "/"%char.

(** [s.startsWith(p)] *)
Fixpoint startsWith (s p : string) {struct p} : bool :=
  match p, s with
  | EmptyString, _ => true
  | String _ _, EmptyString => false
  | String a p', String b s' => Ascii.eqb a b && startsWith s' p'
  end.

(** [s.slice(n)] for [0 <= n] *)
Fixpoint slice (s : string) (n : nat) : string :=
  match n, s with
  | O, _ => s
  | S _, EmptyString => EmptyString
  | S n', String _ s' => slice s' n'
  end.

(** [a || b] on strings: the empty string is falsy *)
Definition or_else (a b : string) : string :=
  if String.eqb a "" then b else a.

(** [a ?? b] *)
Definition nullish {A} (a : option A) (b : A) : A :=
  match a with Some x => x | None => b end.

(** every character of [s] is a slash (true for the empty string) *)
Fixpoint all_slashes (s : string) : bool :=
  match s with
  | EmptyString => true
  | String c s' => is_slash c && all_slashes s'
  end.

(** [s.replace(/\/+/g, "/")]: every maximal run of slashes is one match
    of the greedy pattern and is replaced by a single slash.  A slash that
    is followed by another slash is inside the run and emits nothing; the
    last slash of the run emits the replacement. *)
Fixpoint replace_slash_runs (s : string) : string :=
  match s with
  | EmptyString => EmptyString
  | String c s' =>
      if is_slash c then
        if startsWith s' "/" then replace_slash_runs s'
        else String "/"%char (replace_slash_runs s')
      else String c (replace_slash_runs s')
  end.

(** [s.replace(/\/+$/g, "")]: the only match is the run of slashes that
    reaches the end of the input; it is replaced by the empty string. *)
Fixpoint strip_trailing_slashes (s : string) : string :=
  match s with
  | EmptyString => EmptyString
  | String c s' =>
      if is_slash c && all_slashes s' then EmptyString
      else String c (strip_trailing_slashes s')
  end.

(** [s.endsWith("/")] *)
Fixpoint ends_with_slash (s : string) : bool :=
  match s with
  | EmptyString => false
  | String c EmptyString => is_slash c
  | String _ s' => ends_with_slash s'
  end.

(** [s.includes("//")] *)
Fixpoint has_double_slash (s : string) : bool :=
  match s with
  | EmptyString => false
  | String c s' =>
      (is_slash c && startsWith s' "/") || has_double_slash s'
  end.

(** [s.split("/")] *)
Fixpoint split_slash (s : string) : list string :=
  match s with
  | EmptyString => [EmptyString]
  | String c s' =>
      if is_slash c then EmptyString :: split_slash s'
      else match split_slash s' with
           | h :: t => String c h :: t
           | [] => [String c EmptyString]
           end
  end.

(** [s.split("/").filter(Boolean)]: the non-empty path segments *)
Definition segments (s : string) : list string :=
  filter (fun x => x ≠ EmptyString) (split_slash s).

(** [segs.map(x => "/" + x).join("")] *)
Definition join_segments (segs : list string) : string :=
  foldr (fun seg acc => String "/"%char (seg +:+ acc)) EmptyString segs.

(** [s.includes(sub)] *)
Fixpoint includes (s sub : string) : bool :=
  startsWith s sub
  || match s with
     | EmptyString => false
     | String _ s' => includes s' sub
     end.

(** [s.toLowerCase()] on ASCII *)
Definition lower_char (c : ascii) : ascii :=
  let n := nat_of_ascii c in
  if (65 <=? n)%nat && (n <=? 90)%nat then ascii_of_nat (n + 32) else c.

Fixpoint toLowerCase (s : string) : string :=
  match s with
  | EmptyString => EmptyString
  | String c s' => String (lower_char c) (toLowerCase s')
  end.

(** [parts.join(sep)] *)
Definition join (sep : string) (parts : list string) : string :=
  String.concat sep parts.

End Js.

Arguments Ascii.eqb : simpl never.
Arguments String.eqb : simpl never.
Arguments Js.is_slash : simpl never.
Arguments Js.startsWith : simpl never.

(** ** Exceptions *)

Inductive Error : Type :=
  | TypeError (msg : string)
  | RangeError (msg : string)
  | OtherError (msg : string).

Inductive Exc (A : Type) : Type :=
  | Return (a : A)
  | Throw (e : Error).
Arguments Return {A} a.
Arguments Throw {A} e.

#[global] Instance Exc_ret : MRet Exc := @Return.

#[global] Instance Exc_bind : MBind Exc := fun A B k m =>
  match m with
  | Return a => k a
  | Throw e => Throw e
  end.

(** [try { body } catch { handler }] *)
Definition try_catch {A} (body : Exc A) (handler : Error -> Exc A) : Exc A :=
  match body with
  | Return a => Return a
  | Throw e => handler e
  end.

(** A parsed URL: [url_origin] is the scheme and authority, [url_search] and
    [url_hash] keep their leading [?] and [#]. *)
Record URL : Type := mkURL {
  url_origin : string;
  url_pathname : string;
  url_search : string;
  url_hash : string
}.

(** What the repository takes from its platform: the WHATWG URL parser,
    [minimatch], Vite's [normalizePath], [node:path], [node:fs], and whether
    the platform's [Headers] has [getSetCookie].  [url_origin] has no place
    for credentials, so the parser says apart whether an input has them. *)
Class Platform : Type := {
  (** [new URL(input, base)]; [None] when the constructor throws *)
  URL_parse : string -> option string -> option URL;
  (** whether [new URL(input)] has a [username] or a [password] *)
  URL_has_credentials : string -> bool;
  (** [minimatch(target, pattern, { dot: true })] *)
  minimatch_dot : string -> string -> bool;
  (** Vite's [normalizePath] *)
  normalizePath : string -> string;
  (** [path.join(a, b)] *)
  path_join : string -> string -> string;
  (** [path.posix.join(a, b)] *)
  path_posix_join : string -> string -> string;
  (** [fs.existsSync(p) && fs.statSync(p).isFile()] *)
  fs_isFile : string -> bool;
  (** [typeof headers.getSetCookie === "function"] *)
  has_getSetCookie : bool
}.

(** ** The Fetch objects: URL, Headers, Request, Response *)

Module Fetch.

(** [new URL(input, base)] *)
Definition URL_new {pf : Platform} (input : string) (base : option string) : Exc URL :=
  match URL_parse input base with
  | Some u => Return u
  | None => Throw (TypeError "Invalid URL")
  end.

(** [url.pathname = p].  The setter parses [p] again; the values assigned in
    [utils.ts] are ["/"] and a suffix of an already parsed pathname that
    starts at a segment boundary, which the parser leaves as they are. *)
Definition URL_set_pathname (u : URL) (p : string) : URL :=
  mkURL (url_origin u) p (url_search u) (url_hash u).

(** A header list, in insertion order.  Names are compared without case;
    they are stored lower-cased, the way the iterators return them. *)
Definition Headers : Type := list (string * string).

Definition Headers_empty : Headers := [].

Definition name_is (n : string) (e : string * string) : bool :=
  String.eqb (fst e) n.

Definition Headers_values (n : string) (h : Headers) : list string :=
  map snd (List.filter (name_is n) h).

(** [headers.get(name)]: the values of that name joined by [", "] *)
Definition Headers_get (name : string) (h : Headers) : option string :=
  match Headers_values (Js.toLowerCase name) h with
  | [] => None
  | vs => Some (Js.join ", " vs)
  end.

(** [headers.getSetCookie()] *)
Definition Headers_getSetCookie (h : Headers) : list string :=
  Headers_values "set-cookie" h.

(** [headers.delete(name)] *)
Definition Headers_delete (name : string) (h : Headers) : Headers :=
  List.filter (fun e => negb (name_is (Js.toLowerCase name) e)) h.

Fixpoint set_first (n v : string) (h : Headers) : Headers :=
  match h with
  | [] => [(n, v)]
  | e :: h' =>
      if name_is n e
      then (n, v) :: List.filter (fun e' => negb (name_is n e')) h'
      else e :: set_first n v h'
  end.

(** Tab, line feed, carriage return and space *)
Definition is_http_whitespace (c : ascii) : bool :=
  let n := nat_of_ascii c in
  (n =? 9)%nat || (n =? 10)%nat || (n =? 13)%nat || (n =? 32)%nat.

Fixpoint all_http_whitespace (s : string) : bool :=
  match s with
  | EmptyString => true
  | String c s' => is_http_whitespace c && all_http_whitespace s'
  end.

Fixpoint strip_leading_whitespace (s : string) : string :=
  match s with
  | EmptyString => EmptyString
  | String c s' => if is_http_whitespace c then strip_leading_whitespace s' else s
  end.

Fixpoint strip_trailing_whitespace (s : string) : string :=
  match s with
  | EmptyString => EmptyString
  | String c s' =>
      if is_http_whitespace c && all_http_whitespace s' then EmptyString
      else String c (strip_trailing_whitespace s')
  end.

(** A header value is normalized by removing the HTTP whitespace before
    and after it. *)
Definition normalize_value (value : string) : string :=
  strip_trailing_whitespace (strip_leading_whitespace value).

(** The characters of an HTTP token: letters, digits and
    [!#$%&'*+-.^_`|~] *)
Definition is_token_char (c : ascii) : bool :=
  let n := nat_of_ascii c in
  (48 <=? n)%nat && (n <=? 57)%nat
  || (65 <=? n)%nat && (n <=? 90)%nat
  || (97 <=? n)%nat && (n <=? 122)%nat
  || existsb (Ascii.eqb c)
       ["!"; "#"; "$"; "%"; "&"; "'"; "*"; "+"; "-"; "."; "^"; "_"; "`"; "|"; "~"]%char.

Fixpoint all_token_chars (s : string) : bool :=
  match s with
  | EmptyString => true
  | String c s' => is_token_char c && all_token_chars s'
  end.

(** A header name, and a method, is a token that is not empty. *)
Definition is_token (s : string) : bool :=
  negb (String.eqb s "") && all_token_chars s.

(** A normalized header value is valid when it holds no NUL, line feed or
    carriage return. *)
Fixpoint is_header_value (value : string) : bool :=
  match value with
  | EmptyString => true
  | String c s' =>
      let n := nat_of_ascii c in
      negb ((n =? 0)%nat || (n =? 10)%nat || (n =? 13)%nat) && is_header_value s'
  end.

(** [headers.set(name, value)]: the value is normalized; a name that is
    not a token and a value that is not valid are a [TypeError]; then the
    first header of that name takes the value and the others are removed,
    and a new name is appended. *)
Definition Headers_set (name value : string) (h : Headers) : Exc Headers :=
  let value := normalize_value value in
  if negb (is_token name) then Throw (TypeError "invalid header name")
  else if negb (is_header_value value) then Throw (TypeError "invalid header value")
  else Return (set_first (Js.toLowerCase name) value h).

(** [headers.append(name, value)] *)
Definition Headers_append (name value : string) (h : Headers) : Headers :=
  h ++ [(Js.toLowerCase name, value)].

Fixpoint insert_sorted (n : string) (l : list string) : list string :=
  match l with
  | [] => [n]
  | m :: l' =>
      if String.eqb n m then l
      else if String.leb n m then n :: l
      else m :: insert_sorted n l'
  end.

Definition sorted_names (h : Headers) : list string :=
  foldr insert_sorted [] (map fst h).

(** The iteration order of [headers.forEach] and [headers.entries()]: names
    sorted, the values of one name combined; where the platform has
    [getSetCookie], every [set-cookie] value is an entry of its own. *)
Definition Headers_entries {pf : Platform} (h : Headers) : list (string * string) :=
  flat_map
    (fun n =>
       if has_getSetCookie && String.eqb n "set-cookie"
       then map (pair n) (Headers_values n h)
       else match Headers_get n h with
            | Some v => [(n, v)]
            | None => []
            end)
    (sorted_names h).

Record Request : Type := mkRequest {
  request_url : URL;
  request_method : string;
  request_headers : Headers;
  request_body : option (list Byte.byte)
}.

Record RequestInit : Type := mkRequestInit {
  init_method : string;
  init_headers : Headers;
  init_body : option (list Byte.byte)
}.

Definition upper_char (c : ascii) : ascii :=
  let n := nat_of_ascii c in
  if (97 <=? n)%nat && (n <=? 122)%nat then ascii_of_nat (n - 32) else c.

Fixpoint toUpperCase (s : string) : string :=
  match s with
  | EmptyString => EmptyString
  | String c s' => String (upper_char c) (toUpperCase s')
  end.

Definition one_of (names : list string) (s : string) : bool :=
  existsb (String.eqb s) names.

(** CONNECT, TRACE and TRACK, in any case *)
Definition forbidden_method (m : string) : bool :=
  one_of ["CONNECT"; "TRACE"; "TRACK"] (toUpperCase m).

(** DELETE, GET, HEAD, OPTIONS, POST and PUT are upper-cased *)
Definition normalize_method (m : string) : string :=
  if one_of ["DELETE"; "GET"; "HEAD"; "OPTIONS"; "POST"; "PUT"] (toUpperCase m)
  then toUpperCase m else m.

(** [new Request(url, init)] with a string [url] and, in [init], a method,
    a [Headers] object and a byte body or none.  The URL must parse and
    have no credentials; the method must be a token and not a forbidden
    one; a GET or HEAD request has no body.  The headers of [init] were
    checked when they were set and are taken over; a byte body adds no
    content type. *)
Definition Request_new {pf : Platform} (url : string) (init : RequestInit) : Exc Request :=
  u ← URL_new url None;
  if URL_has_credentials url
  then Throw (TypeError "URL includes credentials")
  else if negb (is_token (init_method init))
  then Throw (TypeError "invalid HTTP method")
  else if forbidden_method (init_method init)
  then Throw (TypeError "forbidden method")
  else
    let m := normalize_method (init_method init) in
    if bool_decide (is_Some (init_body init)) && one_of ["GET"; "HEAD"] m
    then Throw (TypeError "Request with GET/HEAD method cannot have body")
    else Return (mkRequest u m (init_headers init) (init_body init)).

(** [new Request(url, request)] with a [URL] object and an existing request
    as the init: method, headers and body are those of [request]. *)
Definition Request_with_url (u : URL) (request : Request) : Request :=
  mkRequest u (request_method request) (request_headers request)
    (request_body request).

Record Response : Type := mkResponse {
  response_status : Z;
  response_headers : Headers;
  response_body : option string
}.

(** [await response.text()] *)
Definition Response_text (r : Response) : string :=
  Js.nullish (response_body r) "".

Definition null_body_status (s : Z) : bool :=
  bool_decide (s ∈ [101; 103; 204; 205; 304]%Z).

(** [new Response(body, { status, headers })] with a string body: the status
    is in 200..599 and is not a null body status; a body without a
    content type gets the one of plain text. *)
Definition Response_new (body : string) (status : Z) (headers : Headers) : Exc Response :=
  if (status <? 200)%Z || (599 <? status)%Z
  then Throw (RangeError "status")
  else if null_body_status status
  then Throw (TypeError "Response with null body status cannot have body")
  else
    let headers' :=
      match Headers_get "content-type" headers with
      | Some _ => headers
      | None => Headers_append "content-type" "text/plain;charset=UTF-8" headers
      end in
    Return (mkResponse status headers' (Some body)).

End Fetch.

(** ** Node's HTTP objects *)

Module Node.

(** A header value of [node:http]: [string | string[]] *)
Inductive HeaderValue : Type :=
  | HString (s : string)
  | HArray (vs : list string).

(** The value inside a template literal; an array prints as [vs.join(",")] *)
Definition header_text (v : HeaderValue) : string :=
  match v with
  | HString s => s
  | HArray vs => Js.join "," vs
  end.

(** JavaScript truthiness of [string | string[]]: every array is truthy,
    also the empty one; the empty string is falsy. *)
Definition truthy (v : HeaderValue) : bool :=
  match v with
  | HString s => negb (String.eqb s "")
  | HArray _ => true
  end.

(** [http.IncomingMessage].  [im_headers] lists the properties of
    [req.headers] in the order of [Object.entries]; a property can hold
    [undefined].  [im_chunks] are the chunks the body stream yields. *)
Record IncomingMessage : Type := mkIncomingMessage {
  im_method : option string;
  im_url : option string;
  im_headers : list (string * option HeaderValue);
  im_chunks : list (list Byte.byte)
}.

(** [obj[k]] where [o] lists the properties of [obj]: the last write to
    [k] is the value of the property *)
Definition obj_get (o : list (string * option HeaderValue)) (k : string)
  : option HeaderValue :=
  foldl (fun acc e => if String.eqb (fst e) k then snd e else acc) None o.

(** [http.ServerResponse].  Headers are kept by lower-cased name, each with
    the name as it was given and its value.  [res_body] and [res_ended] are
    the state once the piped stream has drained. *)
Record ServerResponse : Type := mkServerResponse {
  res_statusCode : Z;
  res_headers : gmap string (string * HeaderValue);
  res_body : option string;
  res_ended : bool
}.

(** [res.setHeader(name, value)] *)
Definition setHeader (res : ServerResponse) (name : string) (value : HeaderValue)
  : ServerResponse :=
  mkServerResponse (res_statusCode res)
    (<[Js.toLowerCase name := (name, value)]> (res_headers res))
    (res_body res) (res_ended res).

(** [res.getHeader(name)] *)
Definition getHeader (res : ServerResponse) (name : string) : option HeaderValue :=
  snd <$> res_headers res !! Js.toLowerCase name.

(** The header lines of that name on the wire: an array value is written as
    one line for each element. *)
Definition header_lines (res : ServerResponse) (name : string) : list string :=
  match getHeader res name with
  | Some (HString s) => [s]
  | Some (HArray vs) => vs
  | None => []
  end.

End Node.

(** ** [src/utils.ts] *)

Module Utils.
Import Fetch.

(** [safeParseUrlPath] *)
Definition safeParseUrlPath {pf : Platform} (value : string) : Exc (option string) :=
  try_catch
    (u ← URL_new value (Some "http://localhost"); mret (Some (url_pathname u)))
    (fun _ => mret None).

(** [normalizeBasePath] *)
Definition normalizeBasePath (base : option string) : string :=
  match base with
  | None => ""
  | Some b =>
      if String.eqb b "" || String.eqb b "/" then ""
      else
        let collapsed :=
          Js.replace_slash_runs (if Js.startsWith b "/" then b else "/" +:+ b) in
        Js.strip_trailing_slashes collapsed
  end.

(** [createBasePathRewriter]: [None] is the [undefined] the source returns
    for an empty normalized base.  [new URL(request.url)] parses the
    serialization of the request's own URL and so gives that URL back. *)
Definition createBasePathRewriter (base : option string)
  : option (Request -> Request) :=
  let normalizedBase := normalizeBasePath base in
  if String.eqb normalizedBase "" then None
  else
    let prefixLength := String.length normalizedBase in
    let prefixWithSlash := normalizedBase +:+ "/" in
    Some (fun request =>
      let url := request_url request in
      let pathname := url_pathname url in
      if String.eqb pathname normalizedBase
      then Request_with_url (URL_set_pathname url "/") request
      else if Js.startsWith pathname prefixWithSlash
      then Request_with_url
             (URL_set_pathname url
                (Js.or_else (Js.slice pathname prefixLength) "/"))
             request
      else request).

(** [createBasePathGuard]; [!!pathname] is false for [undefined] and for
    the empty string *)
Definition createBasePathGuard (base : option string) : option string -> bool :=
  let normalizedBase := normalizeBasePath base in
  if String.eqb normalizedBase "" then fun _ => true
  else
    let withTrailingSlash := normalizedBase +:+ "/" in
    fun pathname =>
      match pathname with
      | None => false
      | Some p =>
          negb (String.eqb p "")
          && (String.eqb p normalizedBase || Js.startsWith p withTrailingSlash)
      end.

End Utils.

(** ** [src/index.ts]: patterns, the request and response bridge, the
    client-script injector and the middleware *)

Module Index.
Import Fetch Node Utils.

(** A [RegExp] object.  [re_matcher s i] is the pattern matched at index [i]
    of [s]: the end index of the match, or [None].  [re_lastIndex] is the
    mutable [lastIndex] property. *)
Record RegExp : Type := mkRegExp {
  re_matcher : string -> nat -> option nat;
  re_global : bool;
  re_sticky : bool;
  re_lastIndex : nat
}.

Definition set_lastIndex (r : RegExp) (i : nat) : RegExp :=
  mkRegExp (re_matcher r) (re_global r) (re_sticky r) i.

(** The search loop of [RegExpBuiltinExec]: try index [i], then the next
    ones unless the expression is sticky; [positions] is the number of
    indices left up to and including the end of [s]. *)
Fixpoint RegExp_search (m : string -> nat -> option nat) (sticky : bool)
    (s : string) (i positions : nat) : option nat :=
  match positions with
  | O => None
  | S positions' =>
      match m s i with
      | Some e => Some e
      | None => if sticky then None else RegExp_search m sticky s (S i) positions'
      end
  end.

(** [regexp.test(s)], with the [RegExp] object after the call.  Without the
    global and sticky flags [lastIndex] is neither read nor written. *)
Definition RegExp_test (r : RegExp) (s : string) : bool * RegExp :=
  let stateful := re_global r || re_sticky r in
  let lastIndex := if stateful then re_lastIndex r else O in
  match RegExp_search (re_matcher r) (re_sticky r) s lastIndex
          (S (String.length s) - lastIndex) with
  | Some e => (true, if stateful then set_lastIndex r e else r)
  | None => (false, if stateful then set_lastIndex r O else r)
  end.

(** [type Pattern = RegExp | string] *)
Inductive Pattern : Type :=
  | PRegExp (r : RegExp)
  | PGlob (g : string).

(** [matchPattern], with the pattern after the call *)
Definition matchPattern {pf : Platform} (pattern : Pattern) (target : string)
  : bool * Pattern :=
  match pattern with
  | PRegExp r => let '(b, r') := RegExp_test r target in (b, PRegExp r')
  | PGlob g => (minimatch_dot target g, PGlob g)
  end.

(** [patterns.some((pattern) => matchPattern(pattern, target))], also the
    [for ... of] loop of the middleware that leaves at the first match:
    the patterns after the first matching one are not tested. *)
Fixpoint some_matchPattern {pf : Platform} (patterns : list Pattern) (target : string)
  : bool * list Pattern :=
  match patterns with
  | [] => (false, [])
  | p :: ps =>
      let '(b, p') := matchPattern p target in
      if b then (true, p' :: ps)
      else let '(b', ps') := some_matchPattern ps target in (b', p' :: ps')
  end.

(** [shouldIgnorePath] *)
Definition shouldIgnorePath {pf : Platform} (filePath : string) (patterns : list Pattern)
  : bool * list Pattern :=
  let normalized := normalizePath filePath in
  some_matchPattern patterns normalized.

(** The loop of [createWorkerRequest] over [Object.entries(req.headers)]:
    an [undefined] value is skipped, and the loop ends at the first
    [headers.set] that throws. *)
Fixpoint copy_request_headers (entries : list (string * option HeaderValue))
    (headers : Headers) : Exc Headers :=
  match entries with
  | [] => Return headers
  | (key, value) :: entries' =>
      match value with
      | None => copy_request_headers entries' headers
      | Some (HArray vs) =>
          headers' ← Headers_set key (Js.join "," vs) headers;
          copy_request_headers entries' headers'
      | Some (HString s) =>
          headers' ← Headers_set key s headers;
          copy_request_headers entries' headers'
      end
  end.

(** [createWorkerRequest] *)
Definition createWorkerRequest {pf : Platform} (req : IncomingMessage) : Exc Request :=
  let method := Js.nullish (im_method req) "GET" in
  let url :=
    "http://"
    +:+ Js.nullish (header_text <$> obj_get (im_headers req) "host") "localhost"
    +:+ Js.nullish (im_url req) "/" in
  headers ← copy_request_headers (im_headers req) Headers_empty;
  let body :=
    if one_of ["GET"; "HEAD"] method then None
    else Some (concat (im_chunks req)) in
  Request_new url (mkRequestInit method headers body).

(** [injectStringToResponse] *)
Definition injectStringToResponse (response : Response) (content : string)
  : Exc Response :=
  let text := Response_text response in
  let headers := Headers_delete "content-length" (response_headers response) in
  Response_new (text +:+ content) (response_status response) headers.

(** The callback given to [response.headers.forEach] in [sendResponse] *)
Definition copy_header (res : ServerResponse) (e : string * string)
  : ServerResponse :=
  if String.eqb (Js.toLowerCase (fst e)) "set-cookie" then res
  else setHeader res (fst e) (HString (snd e)).

(** [sendResponse] *)
Definition sendResponse {pf : Platform} (res : ServerResponse) (response : Response)
  : ServerResponse :=
  let res :=
    mkServerResponse (response_status response) (res_headers res)
      (res_body res) (res_ended res) in
  let setCookie :=
    if has_getSetCookie
    then Some (HArray (Headers_getSetCookie (response_headers response)))
    else HString <$> Headers_get "set-cookie" (response_headers response) in
  let res :=
    match setCookie with
    | Some v => if truthy v then setHeader res "set-cookie" v else res
    | None => res
    end in
  let res := foldl copy_header res (Headers_entries (response_headers response)) in
  mkServerResponse (res_statusCode res) (res_headers res)
    (response_body response) true.

Definition dquote : string := String "034"%char EmptyString.

(** [contentType.match(/^text\/html/)] *)
Definition is_html (contentType : string) : bool :=
  Js.startsWith contentType "text/html".

(** [[^']*'] matched at the start of [s]: the characters before the quote *)
Fixpoint upto_quote (s : string) : option string :=
  match s with
  | EmptyString => None
  | String c s' =>
      if Ascii.eqb c "'"%char then Some EmptyString
      else String c <$> upto_quote s'
  end.

(** [/'nonce-([^']+)'/] matched at the start of [s]: the captured group *)
Definition nonce_here (s : string) : option string :=
  if Js.startsWith s "'nonce-"
  then match upto_quote (Js.slice s 7) with
       | Some t => if String.eqb t "" then None else Some t
       | None => None
       end
  else None.

(** [csp.match(/'nonce-([^']+)'/)?.[1]]: the group of the leftmost match *)
Fixpoint csp_nonce (s : string) : option string :=
  match nonce_here s with
  | Some t => Some t
  | None =>
      match s with
      | EmptyString => None
      | String _ s' => csp_nonce s'
      end
  end.

(** The script tag of the middleware's template literal *)
Definition client_script (nonce : option string) (viteScript : string) : string :=
  "<script"
  +:+ match nonce with
      | Some n => if String.eqb n "" then "" else " nonce=" +:+ dquote +:+ n +:+ dquote
      | None => ""
      end
  +:+ ">import(" +:+ dquote +:+ viteScript +:+ dquote +:+ ")</script>".

(** The emulator instance *)
Record Miniflare : Type := mkMiniflare {
  dispatchFetch : Request -> Exc Response
}.

(** The options and the closure variables the middleware reads *)
Record Options : Type := mkOptions {
  opt_base : option string;
  opt_injectClientScript : option bool
}.

Record PluginState : Type := mkPluginState {
  mf : option Miniflare;
  publicDirPath : string;
  viteBase : string;
  excludePatterns : list Pattern
}.

(** How one run of the middleware ends *)
Inductive Completion : Type :=
  | Next                          (** [next()] *)
  | NextError (e : Error)         (** [next(error)] *)
  | Sent (res : ServerResponse).  (** the response was written *)

(** [dispatched] is the request given to [mf.dispatchFetch], if any;
    [patterns_after] are the exclude patterns after the run. *)
Record Outcome : Type := mkOutcome {
  completion : Completion;
  dispatched : option Request;
  patterns_after : list Pattern
}.

(** The injection branch of the middleware *)
Definition injectClientScript {pf : Platform} (o : Options) (st : PluginState)
    (response : Response) : Exc Response :=
  if Js.nullish (opt_injectClientScript o) true then
    match Headers_get "content-type" (response_headers response) with
    | Some contentType =>
        if is_html contentType then
          let viteScript := path_posix_join (viteBase st) "/@vite/client" in
          let nonce :=
            Headers_get "content-security-policy" (response_headers response)
            ≫= csp_nonce in
          injectStringToResponse response (client_script nonce viteScript)
        else Return response
    | None => Return response
    end
  else Return response.

(** [if (rewriteRequestForBase) { request = rewriteRequestForBase(request) }] *)
Definition rewriteRequestForBase (base : option string) (request : Request) : Request :=
  match createBasePathRewriter base with
  | Some rewrite => rewrite request
  | None => request
  end.

(** [try { m; k } catch (error) { next(error) }] *)
Definition or_next_error {A} (m : Exc A) (d : option Request) (ps : list Pattern)
    (k : A -> Outcome) : Outcome :=
  match m with
  | Return a => k a
  | Throw e => mkOutcome (NextError e) d ps
  end.

(** The public-directory test of the middleware *)
Definition is_public_file {pf : Platform} (st : PluginState) (url : string) : Exc bool :=
  if String.eqb (publicDirPath st) "" then Return false
  else
    pathname ← safeParseUrlPath url;
    match pathname with
    | Some p =>
        if String.eqb p "" then Return false
        else Return (fs_isFile (path_join (publicDirPath st) p))
    | None => Return false
    end.

(** The middleware installed by [configureServer] *)
Definition middleware {pf : Platform} (o : Options) (st : PluginState)
    (req : IncomingMessage) (res : ServerResponse) : Outcome :=
  let shouldHandlePath := createBasePathGuard (opt_base o) in
  let ps := excludePatterns st in
  match im_url req, mf st with
  | Some url, Some emulator =>
      if String.eqb url "" then mkOutcome Next None ps
      else
        or_next_error (is_public_file st url) None ps (fun is_file =>
        if is_file : bool then mkOutcome Next None ps
        else
          let '(excluded, ps) := some_matchPattern ps url in
          if excluded : bool then mkOutcome Next None ps
          else
            or_next_error (safeParseUrlPath url) None ps (fun pathname =>
            if negb (shouldHandlePath pathname) then mkOutcome Next None ps
            else
              or_next_error (createWorkerRequest req) None ps (fun request =>
              let request := rewriteRequestForBase (opt_base o) request in
              or_next_error (dispatchFetch emulator request) (Some request) ps
                (fun response =>
              or_next_error (injectClientScript o st response) (Some request) ps
                (fun response =>
              mkOutcome (Sent (sendResponse res response)) (Some request) ps)))))
  | _, _ => mkOutcome Next None ps
  end.

End Index.

(** ** [src/index.ts]: the rebuild cycle

    [rebuildWorker] is an async function on a single-threaded event loop.
    An activation runs without interruption up to an [await], and is
    resumed, again without interruption, when the awaited promise settles.
    The state holds the closure variables and the activations suspended
    inside the [try] block.  An activation waiting in the [finally] block
    for the follow-up it started has nothing left to do to the state when it
    resumes and is not recorded. *)

Module Rebuild.

(** The promise a suspended activation waits for *)
Inductive Awaiting : Type :=
  | AwaitBuild        (** [await build(buildConfig)] *)
  | AwaitSetOptions.  (** [await mf.setOptions(mfOptions)] *)

#[global] Instance Awaiting_eq_dec : EqDecision Awaiting.
Proof. solve_decision. Defined.

Record State : Type := mkState {
  buildInProgress : bool;
  buildQueued : bool;
  emulator : bool;             (** [mf] is defined *)
  suspended : list Awaiting;
  builds : nat;                (** calls of [build] so far *)
  reloads : nat                (** full-reload messages sent so far *)
}.

Definition init : State := mkState false false false [] 0 0.

(** Bundler invocations that have started and not settled *)
Definition in_flight (s : State) : nat :=
  length (filter (fun a => a = AwaitBuild) (suspended s)).

(** [rebuildWorker] from its entry to its first [await] *)
Definition rebuildWorker (s : State) : State :=
  if buildInProgress s
  then mkState true true (emulator s) (suspended s) (builds s) (reloads s)
  else mkState true (buildQueued s) (emulator s)
         (AwaitBuild :: suspended s) (S (builds s)) (reloads s).

(** The [finally] block; the follow-up call runs to its own first [await] *)
Definition finally_block (s : State) : State :=
  let s := mkState false (buildQueued s) (emulator s) (suspended s)
             (builds s) (reloads s) in
  if buildQueued s
  then rebuildWorker
         (mkState (buildInProgress s) false (emulator s) (suspended s)
            (builds s) (reloads s))
  else s.

Inductive Settled : Type := Resolved | Rejected.

(** [server.hot.send({ type: "full-reload" })] *)
Definition send_reload (s : State) : State :=
  mkState (buildInProgress s) (buildQueued s) (emulator s) (suspended s)
    (builds s) (S (reloads s)).

(** An activation resumes after its promise settled.  [ctor_ok] tells
    whether [new Miniflare(mfOptions)] returns or throws. *)
Definition resume (a : Awaiting) (r : Settled) (ctor_ok : bool) (s : State) : State :=
  match a, r with
  | AwaitBuild, Resolved =>
      if emulator s
      then mkState (buildInProgress s) (buildQueued s) (emulator s)
             (AwaitSetOptions :: suspended s) (builds s) (reloads s)
      else if ctor_ok
      then finally_block
             (send_reload
                (mkState (buildInProgress s) (buildQueued s) true
                   (suspended s) (builds s) (reloads s)))
      else finally_block s
  | AwaitSetOptions, Resolved => finally_block (send_reload s)
  | _, Rejected => finally_block s
  end.

(** The events of the loop: a call of [rebuildWorker] (the initial build, or
    the debounce timer firing), and the promise of the [i]-th suspended
    activation settling. *)
Inductive Event : Type :=
  | Call
  | Settle (i : nat) (r : Settled) (ctor_ok : bool).

Definition step (e : Event) (s : State) : State :=
  match e with
  | Call => rebuildWorker s
  | Settle i r ctor_ok =>
      match suspended s !! i with
      | Some a =>
          resume a r ctor_ok
            (mkState (buildInProgress s) (buildQueued s) (emulator s)
               (delete i (suspended s)) (builds s) (reloads s))
      | None => s
      end
  end.

Definition run (evs : list Event) (s : State) : State :=
  foldl (fun s e => step e s) s evs.

(** The settling promise is the last one of its rebuild cycle: the
    [finally] block runs in the same turn. *)
Definition ends_cycle (s : State) (r : Settled) : bool :=
  match suspended s with
  | [AwaitSetOptions] => true
  | [AwaitBuild] =>
      match r with
      | Rejected => true
      | Resolved => negb (emulator s)
      end
  | _ => false
  end.

(** What holds between the turns of the event loop: either a cycle is in
    progress and exactly one activation is suspended in its [try] block, or
    nothing is in progress, nothing is queued and nothing is suspended. *)
Definition Inv (s : State) : Prop :=
  (buildInProgress s = true ∧ ∃ a, suspended s = [a])
  ∨ (buildInProgress s = false ∧ buildQueued s = false ∧ suspended s = []).

(** The state in which the [finally] block leaves the flags before it looks
    at the queue *)
Definition idle (s : State) (e : bool) (reloaded : nat) : State :=
  mkState false false e [] (builds s) reloaded.

End Rebuild.

(** ** Notions used to state the properties *)

Module Spec.
Import Fetch Node Index.

(** The value [createWorkerRequest] is to give the header [name]: the value
    of the last property of [req.headers] that has this name, case apart,
    and a defined value; an array is joined by commas. *)
Definition copied_header (entries : list (string * option HeaderValue))
    (name : string) : option string :=
  foldl
    (fun acc e =>
       if String.eqb (Js.toLowerCase (fst e)) (Js.toLowerCase name)
       then match snd e with
            | Some v => Some (header_text v)
            | None => acc
            end
       else acc)
    None entries.

(** The URL [createWorkerRequest] builds: the host header, or
    [localhost], and the raw request path *)
Definition absolute_url (req : IncomingMessage) : string :=
  "http://"
  +:+ Js.nullish (header_text <$> obj_get (im_headers req) "host") "localhost"
  +:+ Js.nullish (im_url req) "/".

(** The value the header [name] has after the copy loop has run over
    [entries], when it has the value [acc] before: the values are kept
    without the whitespace around them. *)
Definition header_after (name : string) (acc : option string)
    (entries : list (string * option HeaderValue)) : option string :=
  foldl
    (fun acc e =>
       if String.eqb (Js.toLowerCase (fst e)) (Js.toLowerCase name)
       then match snd e with
            | Some v => Some (normalize_value (header_text v))
            | None => acc
            end
       else acc)
    acc entries.

(** A property of [req.headers] that the copy loop can take over: it is
    [undefined], or its name is a token and its value, without the
    whitespace around it, has no NUL, line feed or carriage return. *)
Definition settable (e : string * option HeaderValue) : bool :=
  match snd e with
  | None => true
  | Some v => is_token (fst e) && is_header_value (normalize_value (header_text v))
  end.

(** The incoming requests out of which the platform makes a [Request]:
    every header can be taken over; the URL parses and has no credentials;
    the method is a token, is not CONNECT, TRACE or TRACK, and is not GET
    or HEAD in another spelling than the upper-case one. *)
Definition constructible {pf : Platform} (req : IncomingMessage) : bool :=
  let method := Js.nullish (im_method req) "GET" in
  forallb settable (im_headers req)
  && bool_decide (is_Some (URL_parse (absolute_url req) None))
  && negb (URL_has_credentials (absolute_url req))
  && is_token method
  && negb (forbidden_method method)
  && (one_of ["GET"; "HEAD"] method
      || negb (one_of ["GET"; "HEAD"] (normalize_method method))).

(** The entry [e] of the iteration sets the header stored under [k] *)
Definition copied (k : string) (e : string * string) : bool :=
  negb (String.eqb (Js.toLowerCase (fst e)) "set-cookie")
  && String.eqb (Js.toLowerCase (fst e)) k.

(** A pattern whose test leaves no trace: a glob, or a [RegExp] without
    the global and sticky flags *)
Definition stateless (p : Pattern) : bool :=
  match p with
  | PRegExp r => negb (re_global r || re_sticky r)
  | PGlob _ => true
  end.

(** A pattern matches a path under the rule of its kind: a [RegExp] when
    its expression matches at some index of the path, a glob when
    [minimatch] with [dot: true] accepts the path. *)
Definition pattern_matches {pf : Platform} (p : Pattern) (target : string) : Prop :=
  match p with
  | PRegExp r =>
      ∃ i e, i ≤ String.length target ∧ re_matcher r target i = Some e
  | PGlob g => minimatch_dot target g = true
  end.


End Spec.

(** ** A concrete platform for the examples

    [URL_parse] covers absolute [http://] inputs and, against an [http://]
    base, inputs that start with a slash; slashes before the host are
    skipped and an empty host is a failure, as in the URL standard.  It is
    meant for inputs without dot segments or characters the parser would
    encode; an authority with an [@] has credentials.  The globs it matches
    are the ones without magic characters. *)

Module Sample.
Import Fetch Node Index.

Definition is_one_of (stops : list ascii) (c : ascii) : bool :=
  existsb (Ascii.eqb c) stops.

Fixpoint before (stops : list ascii) (s : string) : string :=
  match s with
  | EmptyString => EmptyString
  | String c s' => if is_one_of stops c then EmptyString else String c (before stops s')
  end.

Fixpoint from (stops : list ascii) (s : string) : string :=
  match s with
  | EmptyString => EmptyString
  | String c s' => if is_one_of stops c then s else from stops s'
  end.

Fixpoint skip_slashes (s : string) : string :=
  match s with
  | String c s' => if Js.is_slash c then skip_slashes s' else s
  | EmptyString => EmptyString
  end.

Definition parse_path (origin rest : string) : URL :=
  let path := before ["?"; "#"]%char rest in
  let query := from ["?"; "#"]%char rest in
  mkURL origin (Js.or_else path "/") (before ["#"]%char query) (from ["#"]%char query).

Definition parse_authority (s : string) : option URL :=
  let s := skip_slashes s in
  let host := before ["/"; "?"; "#"]%char s in
  if String.eqb host "" then None
  else Some (parse_path ("http://" +:+ host) (from ["/"; "?"; "#"]%char s)).

Definition parse_url (input : string) (base : option string) : option URL :=
  if Js.startsWith input "http://" then parse_authority (Js.slice input 7)
  else
    match base with
    | Some b =>
        if Js.startsWith b "http://" then
          b' ← parse_authority (Js.slice b 7);
          if Js.startsWith input "//" then parse_authority (Js.slice input 2)
          else if Js.startsWith input "/" then Some (parse_path (url_origin b') input)
          else None
        else None
    | None => None
    end.

Definition has_credentials (input : string) : bool :=
  Js.startsWith input "http://"
  && Js.includes (before ["/"; "?"; "#"]%char (skip_slashes (Js.slice input 7))) "@".

Definition platform (multi_cookie : bool) : Platform := {|
  URL_parse := parse_url;
  URL_has_credentials := has_credentials;
  minimatch_dot := String.eqb;
  normalizePath := fun p => p;
  path_join := fun a b => a +:+ b;
  path_posix_join := fun a b => Js.strip_trailing_slashes a +:+ b;
  fs_isFile := fun p => String.eqb p "/proj/public/robots.txt";
  has_getSetCookie := multi_cookie
|}.

(** [/lit/] with the given flags: the literal [lit] at index [i] *)
Definition literal_at (lit s : string) (i : nat) : option nat :=
  if Js.startsWith (Js.slice s i) lit then Some (i + String.length lit) else None.

Definition literal_regexp (lit : string) (global : bool) : RegExp :=
  mkRegExp (literal_at lit) global false 0.

(** A worker that answers every request with a small HTML page, a nonce in
    its policy and two cookies *)
Definition page : Response :=
  mkResponse 200
    [("content-type", "text/html; charset=utf-8");
     ("content-length", "11");
     ("content-security-policy", "script-src 'nonce-abc123'");
     ("set-cookie", "a=1");
     ("set-cookie", "b=2")]
    (Some "<p>hello</p>").



Definition worker : Miniflare := mkMiniflare (fun _ => Return page).

Definition fresh_response : ServerResponse := mkServerResponse 200 ∅ None false.

(** A GET request of the worker to [path] *)
Definition request_to (path : string) : Request :=
  mkRequest (mkURL "http://localhost" path "" "") "GET" [] None.

Definition post : IncomingMessage :=
  mkIncomingMessage (Some "POST") (Some "/app/items?x=1")
    [("host", Some (HString "localhost:5173"));
     ("content-type", Some (HString "application/json"));
     ("accept", Some (HArray ["text/html"; "application/json"]));
     ("x-unset", None)]
    [[Byte.x7b]; [Byte.x7d]].

Definition get (url : string) : IncomingMessage :=
  mkIncomingMessage (Some "GET") (Some url) [("host", Some (HString "localhost:5173"))] [].

(** [TRACE / HTTP/1.1], which Node's HTTP parser accepts *)
Definition trace : IncomingMessage :=
  mkIncomingMessage (Some "TRACE") (Some "/") [("host", Some (HString "localhost:5173"))] [].

End Sample.


(** ** [src/index.ts]: the plugin's configuration *)

Module Plugin.
Import Fetch Node Index.

(** The [base] that the [config] hook hands to Vite: an absent option adds
    no key, the empty string becomes ["/"]. *)
Definition config_base (base : option string) : option string :=
  match base with
  | Some b => Some (if String.eqb b "" then "/" else b)
  | None => None
  end.

Definition pluginName : string := "cf-honox-vite:miniflare-dev-server".

(** A value of type [T | T[] | undefined] *)
Inductive OneOrMany (T : Type) : Type :=
  | Undefined
  | One (value : T)
  | Many (values : list T).
Arguments Undefined {T}.
Arguments One {T} value.
Arguments Many {T} values.

(** [coerceArray]; [truthy] is the truthiness of a single value, and every
    array is truthy, also the empty one *)
Definition coerceArray {T} (truthy : T -> bool) (value : OneOrMany T) : list T :=
  match value with
  | Undefined => []
  | One v => if truthy v then [v] else []
  | Many vs => vs
  end.

(** An element of [config.ssr.external], which is [string[] | true] *)
Inductive ExternalValue : Type :=
  | ExtString (s : string)
  | ExtTrue.

Definition external_truthy (v : ExternalValue) : bool :=
  match v with
  | ExtString s => negb (String.eqb s "")
  | ExtTrue => true
  end.

(** [set.add(x)] on a [Set] kept in insertion order *)
Definition Set_add (x : string) (set : list string) : list string :=
  if bool_decide (x ∈ set) then set else set ++ [x].

(** The [ssr.external] of [buildWorkerConfig]: [Array.from(ssrExternal)]
    after the loop and the final [add] *)
Definition ssrExternal (external : OneOrMany ExternalValue) : list string :=
  let set :=
    foldl
      (fun set value =>
         match value with
         | ExtString s => Set_add s set
         | ExtTrue => set
         end)
      [] (coerceArray external_truthy external) in
  Set_add "cloudflare:workers" set.

(** The [plugins] of [buildWorkerConfig]; [name] reads [plugin.name] *)
Definition worker_plugins {P} (name : P -> string) (plugins : list P) : list P :=
  List.filter (fun plugin => negb (String.eqb (name plugin) pluginName)) plugins.

(** The [rollupOutput] of [buildWorkerConfig]; [output] is
    [config.build?.rollupOptions?.output], an object of options, an array of
    them, or absent, and [str] makes an option value of a string *)
Definition rollupOutput {V} (str : string -> V) (output : OneOrMany (gmap string V))
  : gmap string V :=
  let spread :=
    match output with
    | Many _ => ∅
    | One o => o
    | Undefined => ∅
    end in
  <["format" := str "es"]> (<["entryFileNames" := str "worker.mjs"]> spread).

(** A pattern without flags that is a literal text, as [/\.git/] is *)
Definition literal (text : string) : Pattern :=
  PRegExp (Sample.literal_regexp text false).

(** [defaultOptions.ignoreWatching] and [defaultOptions.outDir] *)
Definition defaultIgnoreWatching : list Pattern :=
  [literal ".wrangler"; literal ".mf"; literal ".git"].

Definition defaultOutDir : string := ".mf/cf-honox-vite".

Definition is_line_terminator (c : ascii) : bool :=
  Ascii.eqb c "010"%char || Ascii.eqb c "013"%char.

(** The characters of [s] before its first line terminator *)
Fixpoint line_length (s : string) : nat :=
  match s with
  | EmptyString => 0
  | String c s' => if is_line_terminator c then 0 else S (line_length s')
  end.

(** [/.*/]: at every index the expression matches the rest of the line *)
Definition any_line : RegExp :=
  mkRegExp (fun s i => Some (i + line_length (Js.slice s i))) false false 0.

Definition pattern_truthy (p : Pattern) : bool :=
  match p with
  | PRegExp _ => true
  | PGlob g => negb (String.eqb g "")
  end.

(** The [exclude] that [cfHonoxVite] gives to the dev server of honox:
    [[...coerceArray(devServerOptions.exclude), /.*/]] *)
Definition disabled_exclude (exclude : OneOrMany Pattern) : list Pattern :=
  coerceArray pattern_truthy exclude ++ [PRegExp any_line].

End Plugin.

(** ** [src/index.ts]: the debounce timer and the file watcher

    Timers are those of the event loop: [setTimeout] makes a timeout that is
    due after its delay, [clearTimeout] removes one, and when the clock
    passes a due time the callback runs.  The clock counts milliseconds. *)

Module Watch.
Import Index.

Record State : Type := mkState {
  now : N;
  rebuildTimer : option nat;        (** the handle kept in [rebuildTimer] *)
  timeouts : list (nat * N);        (** live timeouts: handle and due time,
                                        oldest first *)
  next_handle : nat;
  ignoreWatching : list Pattern;
  rebuild : Rebuild.State
}.

Definition init (ignoreWatching : list Pattern) : State :=
  mkState 0%N None [] 0 ignoreWatching Rebuild.init.

(** The delay [setTimeout] uses: a delay below 1 or above 2147483647 is
    taken as 1 *)
Definition timer_delay (ms : N) : N :=
  if ((1 <=? ms) && (ms <=? 2147483647))%N then ms else 1%N.

(** [clearTimeout(handle)]; clearing a timeout that has fired does nothing *)
Definition clearTimeout (handle : nat) (ts : list (nat * N)) : list (nat * N) :=
  List.filter (fun t => negb (fst t =? handle)) ts.

(** [scheduleRebuild] *)
Definition scheduleRebuild (reloadDebounceMs : option N) (s : State) : State :=
  let debounce := Js.nullish reloadDebounceMs 80%N in
  let ts :=
    match rebuildTimer s with
    | Some handle => clearTimeout handle (timeouts s)
    | None => timeouts s
    end in
  let handle := next_handle s in
  mkState (now s) (Some handle)
    (ts ++ [(handle, (now s + timer_delay debounce)%N)])
    (S handle) (ignoreWatching s) (rebuild s).

(** The callback of the [all] event of the watcher; [absoluteOutDir] is
    [path.resolve(config.root, outDir)].  The second test is evaluated only
    when [shouldIgnorePath] answers false. *)
Definition on_all {pf : Platform} (reloadDebounceMs : option N)
    (absoluteOutDir : string) (file : string) (s : State) : State :=
  let '(ignored, patterns) := shouldIgnorePath file (ignoreWatching s) in
  let s :=
    mkState (now s) (rebuildTimer s) (timeouts s) (next_handle s) patterns
      (rebuild s) in
  if ignored
     || Js.startsWith (normalizePath file) (normalizePath absoluteOutDir)
  then s
  else scheduleRebuild reloadDebounceMs s.

(** The clock moves on by [ms]: the timeouts that are due fire, oldest
    first, each calling [rebuildWorker]. *)
Definition advance (ms : N) (s : State) : State :=
  let t := (now s + ms)%N in
  let due := List.filter (fun x => (snd x <=? t)%N) (timeouts s) in
  let rest := List.filter (fun x => negb (snd x <=? t)%N) (timeouts s) in
  mkState t (rebuildTimer s) rest (next_handle s) (ignoreWatching s)
    (foldl (fun r _ => Rebuild.rebuildWorker r) (rebuild s) due).

Inductive Event : Type :=
  | Change (file : string)
  | Advance (ms : N)
  | Loop (e : Rebuild.Event).  (** a call or a settled promise of the cycle *)

Definition step {pf : Platform} (reloadDebounceMs : option N)
    (absoluteOutDir : string) (e : Event) (s : State) : State :=
  match e with
  | Change file => on_all reloadDebounceMs absoluteOutDir file s
  | Advance ms => advance ms s
  | Loop e' =>
      mkState (now s) (rebuildTimer s) (timeouts s) (next_handle s)
        (ignoreWatching s) (Rebuild.step e' (rebuild s))
  end.

Definition run {pf : Platform} (reloadDebounceMs : option N)
    (absoluteOutDir : string) (evs : list Event) (s : State) : State :=
  foldl (fun s e => step reloadDebounceMs absoluteOutDir e s) s evs.

(** The watcher passes the change of [file] on to [scheduleRebuild] *)
Definition watched {pf : Platform} (absoluteOutDir : string)
    (patterns : list Pattern) (file : string) : bool :=
  negb (fst (shouldIgnorePath file patterns))
  && negb (Js.startsWith (normalizePath file) (normalizePath absoluteOutDir)).

(** Changes of [files] that follow one another after the gaps [gaps], and
    then [quiet] milliseconds without a change *)
Fixpoint burst (file : string) (more : list (N * string)) (quiet : N)
  : list Event :=
  match more with
  | [] => [Change file; Advance quiet]
  | (gap, file') :: more' => Change file :: Advance gap :: burst file' more' quiet
  end.

(** At most one timeout is live; it is the one [rebuildTimer] names, and it
    is not yet due. *)
Definition one_timer (s : State) : Prop :=
  timeouts s = []
  ∨ ∃ handle due,
      timeouts s = [(handle, due)] ∧ rebuildTimer s = Some handle
      ∧ (now s < due)%N.

(** The events of the rebuild cycle among [evs] *)
Definition loop_events (evs : list Event) : list Rebuild.Event :=
  flat_map (fun e => match e with Loop e' => [e'] | _ => [] end) evs.

(** No file changes in [e] other than one under the output directory *)
Definition only_output {pf : Platform} (absoluteOutDir : string) (e : Event) : bool :=
  match e with
  | Change file => Js.startsWith (normalizePath file) (normalizePath absoluteOutDir)
  | _ => true
  end.

End Watch.

(** ** Counting over runs of the rebuild cycle *)

Module Accounting.
Import Rebuild.

Definition is_call (e : Event) : bool :=
  match e with
  | Call => true
  | Settle _ _ _ => false
  end.

(** The number of calls of [rebuildWorker] from outside in a run: the call
    of [configureServer] and the firings of the debounce timer *)
Definition calls (evs : list Event) : nat := length (List.filter is_call evs).

(** One when a follow-up is queued *)
Definition pending (s : State) : nat := if buildQueued s then 1 else 0.

(** One while a cycle is in progress *)
Definition busy (s : State) : nat := if buildInProgress s then 1 else 0.

(** What a run has started and sent, in every state it can reach *)
Definition Counted (evs : list Event) (s : State) : Prop :=
  Inv s
  ∧ builds s + pending s ≤ calls evs
  ∧ reloads s + busy s ≤ builds s
  ∧ emulator s = (0 <? reloads s)
  ∧ (In AwaitSetOptions (suspended s) → emulator s = true).

End Accounting.

(** ** More examples *)

Module Example.
Import Fetch Node Index.

(** A worker whose dispatch fails *)
Definition failing_worker : Miniflare :=
  mkMiniflare (fun _ => Throw (OtherError "worker failed")).

(** The plugin mounted at [/app], with a public directory and no exclude
    pattern *)
Definition mounted (emulator : Miniflare) : PluginState :=
  mkPluginState (Some emulator) "/proj/public" "/" [].

Definition at_app : Options := mkOptions (Some "/app") None.

(** The output directory of a project at [/proj] and the artifact in it *)
Definition out_dir : string := "/proj/.mf/cf-honox-vite".

Definition artifact : string := "/proj/.mf/cf-honox-vite/worker.mjs".

(** A request whose target starts with two slashes: the parser of the
    guard reads [localhost:5173] as a host and [/app/x] as the path *)
Definition double_slash : IncomingMessage :=
  Sample.get "//localhost:5173/app/x".

End Example.
(** * Properties *)

(** ** Strings *)

Lemma startsWith_cons a p b s :
  Js.startsWith (String b s) (String a p) = Ascii.eqb a b && Js.startsWith s p.
Proof. reflexivity. Qed.

Lemma startsWith_empty s : Js.startsWith s "" = true.
Proof. reflexivity. Qed.

Lemma startsWith_slash_cons c s :
  Js.startsWith (String c s) "/" = Js.is_slash c.
Proof.
  unfold Js.is_slash. rewrite startsWith_cons, startsWith_empty, andb_true_r.
  apply Ascii.eqb_sym.
Qed.

Lemma string_app_cons c (s t : string) : String c s +:+ t = String c (s +:+ t).
Proof. reflexivity. Qed.

Lemma string_app_nil_l (t : string) : "" +:+ t = t.
Proof. reflexivity. Qed.

Lemma startsWith_app s p : Js.startsWith (p +:+ s) p = true.
Proof.
  induction p as [|c p IH]; [done|].
  by rewrite string_app_cons, startsWith_cons, Ascii.eqb_refl, IH.
Qed.

Lemma startsWith_inv s p :
  Js.startsWith s p = true → ∃ t, s = p +:+ t.
Proof.
  revert s. induction p as [|c p IH]; intros s Hp.
  - by exists s.
  - destruct s as [|d s]; [done|]. rewrite startsWith_cons in Hp.
    apply andb_prop in Hp as [->%Ascii.eqb_eq Hp].
    destruct (IH _ Hp) as [t ->]. by exists t.
Qed.

Lemma slice_app p t : Js.slice (p +:+ t) (String.length p) = t.
Proof.
  induction p as [|c p IH]; [by destruct t|].
  rewrite string_app_cons. apply IH.
Qed.

Lemma string_app_assoc (a b c : string) : (a +:+ b) +:+ c = a +:+ (b +:+ c).
Proof.
  induction a as [|x a IH]; [done|]. by rewrite !string_app_cons, IH.
Qed.

(** ** [normalizeBasePath] *)

Lemma all_slashes_replace s :
  Js.all_slashes (Js.replace_slash_runs s) = Js.all_slashes s.
Proof.
  induction s as [|c s IH]; simpl; [done|].
  destruct (Js.is_slash c) eqn:Hc; simpl; [|by rewrite Hc].
  destruct s as [|d s]; [reflexivity|].
  rewrite startsWith_slash_cons.
  destruct (Js.is_slash d) eqn:Hd; [by rewrite IH|].
  cbn [Js.all_slashes]. by rewrite IH.
Qed.

Lemma strip_nil_iff s :
  Js.strip_trailing_slashes s = "" ↔ Js.all_slashes s = true.
Proof.
  destruct s as [|c s]; simpl; [done|].
  destruct (Js.is_slash c && Js.all_slashes s); split; done.
Qed.

Lemma replace_no_double_slash s :
  Js.has_double_slash (Js.replace_slash_runs s) = false.
Proof.
  induction s as [|c s IH]; simpl; [done|].
  destruct (Js.is_slash c) eqn:Hc.
  - destruct (Js.startsWith s "/") eqn:Hs; [done|].
    simpl. rewrite IH, orb_false_r.
    destruct s as [|d s]; [reflexivity|].
    rewrite startsWith_slash_cons in Hs. simpl. rewrite Hs.
    by rewrite startsWith_slash_cons, Hs.
  - simpl. by rewrite Hc, IH.
Qed.

Lemma strip_startsWith_slash t :
  Js.startsWith (Js.strip_trailing_slashes t) "/" = true →
  Js.startsWith t "/" = true.
Proof.
  destruct t as [|c t]; simpl; [done|].
  destruct (Js.is_slash c && Js.all_slashes t); [done|].
  by rewrite !startsWith_slash_cons.
Qed.

Lemma strip_no_double_slash t :
  Js.has_double_slash t = false →
  Js.has_double_slash (Js.strip_trailing_slashes t) = false.
Proof.
  induction t as [|c t IH]; simpl; [done|].
  intros [H1 H2]%orb_false_elim.
  destruct (Js.is_slash c && Js.all_slashes t); [done|].
  simpl. rewrite (IH H2), orb_false_r.
  destruct (Js.is_slash c); [|done]. simpl in *.
  destruct (Js.startsWith (Js.strip_trailing_slashes t) "/") eqn:E; [|done].
  apply strip_startsWith_slash in E. congruence.
Qed.

Lemma strip_no_trailing_slash t :
  Js.ends_with_slash (Js.strip_trailing_slashes t) = false.
Proof.
  induction t as [|c t IH]; simpl; [done|].
  destruct (Js.is_slash c) eqn:Hc, (Js.all_slashes t) eqn:Ht; simpl; try done.
  - destruct (Js.strip_trailing_slashes t) eqn:E; [|done].
    apply strip_nil_iff in E. congruence.
  - apply strip_nil_iff in Ht. by rewrite Ht.
  - by destruct (Js.strip_trailing_slashes t).
Qed.

Lemma replace_startsWith_slash s :
  Js.startsWith s "/" = true →
  Js.startsWith (Js.replace_slash_runs s) "/" = true.
Proof.
  induction s as [|c s IH]; [done|].
  rewrite startsWith_slash_cons. intros Hc. simpl. rewrite Hc.
  destruct (Js.startsWith s "/") eqn:Hs; [by apply IH | ].
  by rewrite startsWith_slash_cons.
Qed.

Lemma strip_keeps_first t :
  Js.all_slashes t = false →
  Js.startsWith (Js.strip_trailing_slashes t) "/" = Js.startsWith t "/".
Proof.
  destruct t as [|c t]; simpl; [done|].
  intros ->. by rewrite !startsWith_slash_cons.
Qed.

Lemma split_slash_not_nil s : Js.split_slash s ≠ [].
Proof.
  destruct s as [|c s]; simpl; [done|].
  destruct (Js.is_slash c); [done|]. by destruct (Js.split_slash s).
Qed.

(** The two replacements together keep the text before the first slash and
    put one slash before every later non-empty segment. *)
Lemma strip_replace_segments s :
  Js.strip_trailing_slashes (Js.replace_slash_runs s)
  = match Js.split_slash s with
    | h :: t => h +:+ Js.join_segments (filter (fun x => x ≠ EmptyString) t)
    | [] => ""
    end.
Proof.
  induction s as [|c s IH]; [done|].
  cbn [Js.replace_slash_runs Js.split_slash].
  destruct (Js.is_slash c) eqn:Hc.
  - rewrite string_app_nil_l.
    destruct s as [|d s]; [reflexivity|].
    rewrite startsWith_slash_cons.
    destruct (Js.is_slash d) eqn:Hd.
    + rewrite IH. cbn [Js.split_slash]. rewrite Hd, string_app_nil_l.
      by rewrite (filter_cons_False _ "") by (intros ?; done).
    + cbn [Js.strip_trailing_slashes].
      rewrite all_slashes_replace. cbn [Js.all_slashes]. rewrite Hd, andb_false_r.
      rewrite IH. cbn [Js.split_slash]. rewrite Hd.
      destruct (Js.split_slash s) as [|h t] eqn:E; [by apply split_slash_not_nil in E|].
      by rewrite filter_cons_True by done.
  - cbn [Js.strip_trailing_slashes]. rewrite Hc. cbn [andb]. rewrite IH.
    by destruct (Js.split_slash s) as [|h t] eqn:E; [apply split_slash_not_nil in E|].
Qed.

Lemma all_slashes_not_trivial b :
  Js.all_slashes b = false → String.eqb b "" || String.eqb b "/" = false.
Proof.
  intros Hb. apply orb_false_intro; apply String.eqb_neq; intros ->; done.
Qed.

Lemma segments_slash_cons s : Js.segments ("/" +:+ s) = Js.segments s.
Proof.
  unfold Js.segments. rewrite string_app_cons, string_app_nil_l.
  cbn [Js.split_slash]. change (Js.is_slash "/") with true. cbn iota.
  by rewrite (filter_cons_False _ "") by (intros ?; done).
Qed.

Lemma normalizeBasePath_segments b :
  Utils.normalizeBasePath (Some b) = Js.join_segments (Js.segments b).
Proof.
  unfold Utils.normalizeBasePath.
  destruct (String.eqb_spec b "") as [->|Hne]; [done|].
  destruct (String.eqb_spec b "/") as [->|Hne']; [done|].
  cbn [orb]. rewrite strip_replace_segments.
  destruct (Js.startsWith b "/") eqn:Hb.
  - apply startsWith_inv in Hb as [t ->].
    rewrite segments_slash_cons.
    rewrite string_app_cons, string_app_nil_l. cbn [Js.split_slash].
    change (Js.is_slash "/") with true. cbn iota.
    by rewrite string_app_nil_l.
  - rewrite string_app_cons, string_app_nil_l. cbn [Js.split_slash].
    change (Js.is_slash "/") with true. cbn iota.
    by rewrite string_app_nil_l.
Qed.

Lemma normalizeBasePath_all_slashes b :
  Js.all_slashes b = true → Utils.normalizeBasePath (Some b) = "".
Proof.
  intros Hb. unfold Utils.normalizeBasePath.
  destruct (String.eqb b "" || String.eqb b "/"); [done|].
  apply strip_nil_iff. rewrite all_slashes_replace.
  destruct (Js.startsWith b "/"); [done|].
  rewrite string_app_cons, string_app_nil_l. cbn [Js.all_slashes].
  by rewrite Hb.
Qed.

Lemma normalizeBasePath_shape b :
  Js.all_slashes b = false →
  Js.startsWith (Utils.normalizeBasePath (Some b)) "/" = true
  ∧ Js.has_double_slash (Utils.normalizeBasePath (Some b)) = false
  ∧ Js.ends_with_slash (Utils.normalizeBasePath (Some b)) = false.
Proof.
  intros Hb. unfold Utils.normalizeBasePath.
  rewrite (all_slashes_not_trivial _ Hb).
  set (s := if Js.startsWith b "/" then b else "/" +:+ b).
  assert (Hs : Js.startsWith s "/" = true).
  { subst s. destruct (Js.startsWith b "/") eqn:E; [done|].
    by rewrite string_app_cons, startsWith_slash_cons. }
  assert (Ha : Js.all_slashes s = false).
  { subst s. destruct (Js.startsWith b "/"); [done|].
    rewrite string_app_cons, string_app_nil_l. cbn [Js.all_slashes].
    by rewrite Hb, andb_false_r. }
  split; [|split].
  - rewrite strip_keeps_first by by rewrite all_slashes_replace.
    by apply replace_startsWith_slash.
  - apply strip_no_double_slash, replace_no_double_slash.
  - apply strip_no_trailing_slash.
Qed.

(** C4, as amended.  [normalizeBasePath] maps an absent base, the empty
    string, ["/"] and every other input made of slashes only (such as
    ["//"]) to the empty string.  Every other input gives a result that
    starts with exactly one slash, has no repeated slash and no trailing
    slash.  In all cases the result is the input's non-empty segments, each
    after one slash.  In particular [""] and ["/"] give [""], ["foo"] gives
    ["/foo"] and ["/foo//bar/"] gives ["/foo/bar"]. *)
Theorem normalizeBasePath_spec (b : string) :
  Utils.normalizeBasePath None = ""
  ∧ Utils.normalizeBasePath (Some b) = Js.join_segments (Js.segments b)
  ∧ (if Js.all_slashes b
     then Utils.normalizeBasePath (Some b) = ""
     else Js.startsWith (Utils.normalizeBasePath (Some b)) "/" = true
          ∧ Js.has_double_slash (Utils.normalizeBasePath (Some b)) = false
          ∧ Js.ends_with_slash (Utils.normalizeBasePath (Some b)) = false)
  ∧ Utils.normalizeBasePath (Some "") = ""
  ∧ Utils.normalizeBasePath (Some "/") = ""
  ∧ Utils.normalizeBasePath (Some "foo") = "/foo"
  ∧ Utils.normalizeBasePath (Some "/foo//bar/") = "/foo/bar".
Proof.
  split; [done|]. split; [apply normalizeBasePath_segments|].
  split; [|by repeat split].
  destruct (Js.all_slashes b) eqn:Hb.
  - by apply normalizeBasePath_all_slashes.
  - by apply normalizeBasePath_shape.
Qed.

(** C4, the claim as stated fails: ["//"] is neither empty nor ["/"], and its
    normal form is the empty string, which does not start with a slash. *)
Lemma normalizeBasePath_double_slash_counterexample :
  "//" ≠ "" ∧ "//" ≠ "/"
  ∧ Utils.normalizeBasePath (Some "//") = ""
  ∧ Js.startsWith (Utils.normalizeBasePath (Some "//")) "/" = false.
Proof. by repeat split. Qed.

(** ** The base-path guard and rewriter *)

Lemma string_app_not_nil (a b : string) : a ≠ "" → a +:+ b ≠ "".
Proof. by destruct a. Qed.

Lemma under_base_iff (B p : string) :
  B ≠ "" →
  negb (String.eqb p "") && (String.eqb p B || Js.startsWith p (B +:+ "/")) = true
  ↔ p = B ∨ ∃ t, p = B +:+ "/" +:+ t.
Proof.
  intros HB. split.
  - intros [_ [->%String.eqb_eq | Hp]%orb_prop]%andb_prop; [by left|].
    right. apply startsWith_inv in Hp as [t ->]. exists t.
    by rewrite string_app_assoc.
  - intros Hp. apply andb_true_intro. split.
    + apply negb_true_iff, String.eqb_neq.
      destruct Hp as [->|[t ->]]; [done|]. by apply string_app_not_nil.
    + destruct Hp as [->|[t ->]].
      * by rewrite String.eqb_refl.
      * by rewrite <- string_app_assoc, startsWith_app, orb_true_r.
Qed.

(** C3.  With a base that normalizes to the empty string the guard accepts
    every pathname, the absent one too.  With a non-empty normalized base
    [B] it accepts exactly the pathnames equal to [B] or of the form
    [B + "/" + t].  With base ["/app"] it accepts ["/app"] and ["/app/x"] and
    rejects ["/appx"] and ["/other"]. *)
Theorem createBasePathGuard_spec (base pathname : option string) :
  (if String.eqb (Utils.normalizeBasePath base) ""
   then Utils.createBasePathGuard base pathname = true
   else Utils.createBasePathGuard base pathname = true
        ↔ ∃ p, pathname = Some p
               ∧ (p = Utils.normalizeBasePath base
                  ∨ ∃ t, p = Utils.normalizeBasePath base +:+ "/" +:+ t))
  ∧ Utils.createBasePathGuard (Some "/app") (Some "/app") = true
  ∧ Utils.createBasePathGuard (Some "/app") (Some "/app/x") = true
  ∧ Utils.createBasePathGuard (Some "/app") (Some "/appx") = false
  ∧ Utils.createBasePathGuard (Some "/app") (Some "/other") = false.
Proof.
  split; [|by repeat split].
  unfold Utils.createBasePathGuard.
  destruct (String.eqb_spec (Utils.normalizeBasePath base) "") as [E|HB]; [done|].
  destruct pathname as [p|].
  - rewrite (under_base_iff _ _ HB). split.
    + intros Hp. by exists p.
    + by intros (q & [= <-] & Hq).
  - split; [done|]. by intros (q & [=] & _).
Qed.

Lemma slice_under_base (B p : string) :
  Js.startsWith p (B +:+ "/") = true →
  ∃ t, p = B +:+ t ∧ Js.startsWith t "/" = true ∧ Js.slice p (String.length B) = t.
Proof.
  intros [t ->]%startsWith_inv. exists ("/" +:+ t).
  rewrite string_app_assoc. split; [done|]. split; [done|]. apply slice_app.
Qed.

(** C2.  With a base that normalizes to the empty string there is no
    rewriter and the request goes on as it is.  With a non-empty normalized
    base [B]: a pathname equal to [B] becomes ["/"]; a pathname [B + t] with
    [t] starting with a slash becomes [t], or ["/"] were [t] empty; any other
    request is returned as it is.  Method, headers and body, and the URL
    outside its path, are those of the input.  With base ["/app"], ["/app"]
    becomes ["/"], ["/app/x"] becomes ["/x"], and a request to ["/other"] is
    returned as it is. *)
Theorem createBasePathRewriter_spec (base : option string) (request : Fetch.Request) :
  let B := Utils.normalizeBasePath base in
  let p := url_pathname (Fetch.request_url request) in
  let request' := Index.rewriteRequestForBase base request in
  let p' := url_pathname (Fetch.request_url request') in
  (if String.eqb B ""
   then Utils.createBasePathRewriter base = None ∧ request' = request
   else if String.eqb p B then p' = "/"
   else if Js.startsWith p (B +:+ "/")
   then ∃ t, p = B +:+ t ∧ Js.startsWith t "/" = true ∧ p' = Js.or_else t "/"
   else request' = request)
  ∧ Fetch.request_method request' = Fetch.request_method request
  ∧ Fetch.request_headers request' = Fetch.request_headers request
  ∧ Fetch.request_body request' = Fetch.request_body request
  ∧ url_origin (Fetch.request_url request') = url_origin (Fetch.request_url request)
  ∧ url_search (Fetch.request_url request') = url_search (Fetch.request_url request)
  ∧ url_hash (Fetch.request_url request') = url_hash (Fetch.request_url request)
  ∧ url_pathname (Fetch.request_url
      (Index.rewriteRequestForBase (Some "/app") (Sample.request_to "/app"))) = "/"
  ∧ url_pathname (Fetch.request_url
      (Index.rewriteRequestForBase (Some "/app") (Sample.request_to "/app/x"))) = "/x"
  ∧ Index.rewriteRequestForBase (Some "/app") (Sample.request_to "/other")
    = Sample.request_to "/other".
Proof.
  cbv zeta. unfold Index.rewriteRequestForBase, Utils.createBasePathRewriter.
  destruct (String.eqb (Utils.normalizeBasePath base) "") eqn:EB.
  { by repeat split. }
  destruct (String.eqb (url_pathname (Fetch.request_url request))
              (Utils.normalizeBasePath base)) eqn:Ep.
  { by repeat split. }
  destruct (Js.startsWith (url_pathname (Fetch.request_url request))
              (Utils.normalizeBasePath base +:+ "/")) eqn:Es.
  - split; [|by repeat split].
    destruct (slice_under_base _ _ Es) as (t & Hp & Ht & Hslice).
    exists t. cbn. by rewrite Hslice.
  - by repeat split.
Qed.

(** ** The request bridge *)

Section Bridge.
Context {pf : Platform}.

Lemma name_is_other n m e :
  m ≠ n → Fetch.name_is n e = true → Fetch.name_is m e = false.
Proof.
  unfold Fetch.name_is. intros Hne ->%String.eqb_eq.
  apply String.eqb_neq. congruence.
Qed.

Lemma values_filter_out n m (h : Fetch.Headers) :
  m ≠ n →
  Fetch.Headers_values m (List.filter (fun e => negb (Fetch.name_is n e)) h)
  = Fetch.Headers_values m h.
Proof.
  intros Hne. unfold Fetch.Headers_values.
  induction h as [|e h IH]; [done|]. cbn [List.filter].
  destruct (Fetch.name_is n e) eqn:En; cbn [negb List.filter].
  - by rewrite (name_is_other _ _ _ Hne En).
  - destruct (Fetch.name_is m e); cbn [map]; by rewrite IH.
Qed.

Lemma values_filter_same n (h : Fetch.Headers) :
  Fetch.Headers_values n (List.filter (fun e => negb (Fetch.name_is n e)) h) = [].
Proof.
  unfold Fetch.Headers_values.
  induction h as [|e h IH]; [done|]. cbn [List.filter].
  destruct (Fetch.name_is n e) eqn:En; cbn [negb List.filter]; [done|].
  by rewrite En.
Qed.

Lemma name_is_new n v : Fetch.name_is n (n, v) = true.
Proof. apply String.eqb_refl. Qed.

Lemma values_set_first_same n v h :
  Fetch.Headers_values n (Fetch.set_first n v h) = [v].
Proof.
  induction h as [|e h IH]; cbn [Fetch.set_first].
  - unfold Fetch.Headers_values. cbn [List.filter]. by rewrite name_is_new.
  - destruct (Fetch.name_is n e) eqn:En.
    + pose proof (values_filter_same n h) as Hrest.
      unfold Fetch.Headers_values in *. cbn [List.filter].
      rewrite name_is_new. cbn [map snd]. by rewrite Hrest.
    + unfold Fetch.Headers_values in *. cbn [List.filter]. by rewrite En.
Qed.

Lemma values_set_first_other n m v h :
  m ≠ n →
  Fetch.Headers_values m (Fetch.set_first n v h) = Fetch.Headers_values m h.
Proof.
  intros Hne.
  assert (Hnew : ∀ t, Fetch.Headers_values m ((n, v) :: t) = Fetch.Headers_values m t).
  { intros t. unfold Fetch.Headers_values. cbn [List.filter].
    by rewrite (name_is_other n m (n, v) Hne (name_is_new n v)). }
  induction h as [|e h IH]; cbn [Fetch.set_first].
  - apply Hnew.
  - destruct (Fetch.name_is n e) eqn:En.
    + rewrite Hnew, values_filter_out by done.
      unfold Fetch.Headers_values. cbn [List.filter].
      by rewrite (name_is_other _ _ _ Hne En).
    + unfold Fetch.Headers_values in *. cbn [List.filter].
      destruct (Fetch.name_is m e); cbn [map]; by rewrite IH.
Qed.

Lemma Headers_get_set_first name k v h :
  Fetch.Headers_get name (Fetch.set_first (Js.toLowerCase k) v h)
  = if String.eqb (Js.toLowerCase k) (Js.toLowerCase name)
    then Some v else Fetch.Headers_get name h.
Proof.
  unfold Fetch.Headers_get.
  destruct (String.eqb_spec (Js.toLowerCase k) (Js.toLowerCase name)) as [<-|Hne].
  - by rewrite values_set_first_same.
  - by rewrite values_set_first_other by done.
Qed.

(** [headers.set] returns exactly for a settable property *)
Lemma Headers_set_settable k v h :
  Fetch.Headers_set k (Node.header_text v) h
  = if Spec.settable (k, Some v)
    then Return (Fetch.set_first (Js.toLowerCase k)
                   (Fetch.normalize_value (Node.header_text v)) h)
    else Throw (TypeError (if Fetch.is_token k then "invalid header value"
                           else "invalid header name")).
Proof.
  unfold Fetch.Headers_set, Spec.settable. cbn [fst snd].
  destruct (Fetch.is_token k); cbn [negb andb]; [|done].
  by destruct (Fetch.is_header_value _).
Qed.

Lemma copy_request_headers_cons k v entries h :
  Index.copy_request_headers ((k, Some v) :: entries) h
  = Fetch.Headers_set k (Node.header_text v) h
    ≫= Index.copy_request_headers entries.
Proof. by destruct v. Qed.

Lemma copy_request_headers_returns entries :
  ∀ h, forallb Spec.settable entries = true →
       ∃ h', Index.copy_request_headers entries h = Return h'
             ∧ ∀ name, Fetch.Headers_get name h'
                       = Spec.header_after name (Fetch.Headers_get name h) entries.
Proof.
  induction entries as [|[k [v|]] entries IH]; intros h Hall.
  - by exists h.
  - cbn [forallb] in Hall. apply andb_prop in Hall as [Hk Hall].
    rewrite copy_request_headers_cons, Headers_set_settable, Hk.
    cbn [mbind Exc_bind].
    destruct (IH (Fetch.set_first (Js.toLowerCase k)
                    (Fetch.normalize_value (Node.header_text v)) h) Hall)
      as (h' & Hret & Hget).
    exists h'. split; [exact Hret|]. intros name.
    rewrite Hget, Headers_get_set_first. unfold Spec.header_after. cbn [foldl fst snd].
    by destruct (String.eqb (Js.toLowerCase k) (Js.toLowerCase name)).
  - cbn [forallb] in Hall. apply andb_prop in Hall as [_ Hall].
    cbn [Index.copy_request_headers].
    destruct (IH h Hall) as (h' & Hret & Hget).
    exists h'. split; [exact Hret|]. intros name. rewrite Hget.
    unfold Spec.header_after. cbn [foldl fst snd].
    by destruct (String.eqb (Js.toLowerCase k) (Js.toLowerCase name)).
Qed.

Lemma copy_request_headers_throws entries :
  ∀ h, forallb Spec.settable entries = false →
       ∃ msg, Index.copy_request_headers entries h = Throw (TypeError msg).
Proof.
  induction entries as [|[k [v|]] entries IH]; intros h Hall; [done| |].
  - rewrite copy_request_headers_cons, Headers_set_settable.
    cbn [forallb] in Hall.
    destruct (Spec.settable (k, Some v)); cbn [andb mbind Exc_bind] in *.
    + by apply IH.
    + by eexists.
  - cbn [Index.copy_request_headers]. by apply IH.
Qed.

Lemma header_after_normalized name entries :
  Spec.header_after name None entries
  = Fetch.normalize_value <$> Spec.copied_header entries name.
Proof.
  unfold Spec.header_after, Spec.copied_header.
  change (@None string) with (Fetch.normalize_value <$> @None string) at 1.
  generalize (@None string).
  induction entries as [|[k v] entries IH]; intros acc; [done|].
  cbn [foldl fst snd]. rewrite <- IH. f_equal.
  destruct (String.eqb _ _); [|done]. by destruct v.
Qed.

(** What [createWorkerRequest] returns for a request the platform makes a
    [Request] of *)
Lemma createWorkerRequest_returns req :
  Spec.constructible req = true →
  let method := Js.nullish (Node.im_method req) "GET" in
  ∃ request,
    Index.createWorkerRequest req = Return request
    ∧ URL_parse (Spec.absolute_url req) None = Some (Fetch.request_url request)
    ∧ Fetch.request_method request = Fetch.normalize_method method
    ∧ (∀ name, Fetch.Headers_get name (Fetch.request_headers request)
               = Fetch.normalize_value
                 <$> Spec.copied_header (Node.im_headers req) name)
    ∧ Fetch.request_body request
      = if Fetch.one_of ["GET"; "HEAD"] method then None
        else Some (concat (Node.im_chunks req)).
Proof.
  cbv zeta. unfold Spec.constructible. intros H.
  repeat (apply andb_prop in H as [H ?]).
  destruct (copy_request_headers_returns _ Fetch.Headers_empty H)
    as (headers & Hcopy & Hget).
  unfold Index.createWorkerRequest. rewrite Hcopy. cbn [mbind Exc_bind].
  fold (Spec.absolute_url req). unfold Fetch.Request_new, Fetch.URL_new.
  match goal with Hu : bool_decide _ = true |- _ =>
    apply bool_decide_eq_true in Hu as [u Hu]; rewrite Hu end.
  cbn [mbind Exc_bind Fetch.init_method Fetch.init_headers Fetch.init_body].
  repeat match goal with
         | Hn : negb _ = true |- _ => apply negb_true_iff in Hn; rewrite Hn
         end.
  match goal with Ht : Fetch.is_token _ = true |- _ => rewrite Ht end.
  cbn [negb].
  match goal with Hb : (_ || _) = true |- _ => rename Hb into Hbody end.
  destruct (Fetch.one_of ["GET"; "HEAD"] (Js.nullish (Node.im_method req) "GET"))
    eqn:Hg.
  - eexists. split; [reflexivity|]. cbn. split; [done|]. split; [done|].
    split; [|done]. intros name. rewrite Hget. apply header_after_normalized.
  - cbn [orb] in Hbody. apply negb_true_iff in Hbody. rewrite Hbody, andb_false_r.
    eexists. split; [reflexivity|]. cbn. split; [done|]. split; [done|].
    split; [|done]. intros name. rewrite Hget. apply header_after_normalized.
Qed.

(** C5.  [createWorkerRequest] builds a request exactly for the incoming
    requests the platform accepts: each header name is a token and each
    value has no NUL, line feed or carriage return; the URL made of
    ["http://"], the host header or ["localhost"], and the raw request path
    parses and has no credentials; the method is a token other than
    CONNECT, TRACE and TRACK, and is not a GET or HEAD that is not in upper
    case.  The request then has the parse of that URL; the method, with
    the standard methods in upper case; every incoming header, an array
    joined by commas and a value without the whitespace around it; and no
    body for GET and HEAD and otherwise the concatenation of all chunks of
    the incoming body.  For every other incoming request it throws a
    [TypeError] and builds nothing. *)
Theorem createWorkerRequest_spec (req : Node.IncomingMessage) :
  let method := Js.nullish (Node.im_method req) "GET" in
  if Spec.constructible req
  then ∃ request,
         Index.createWorkerRequest req = Return request
         ∧ URL_parse (Spec.absolute_url req) None = Some (Fetch.request_url request)
         ∧ Fetch.request_method request = Fetch.normalize_method method
         ∧ (∀ name, Fetch.Headers_get name (Fetch.request_headers request)
                    = Fetch.normalize_value
                      <$> Spec.copied_header (Node.im_headers req) name)
         ∧ Fetch.request_body request
           = if Fetch.one_of ["GET"; "HEAD"] method then None
             else Some (concat (Node.im_chunks req))
  else ∃ msg, Index.createWorkerRequest req = Throw (TypeError msg).
Proof.
  cbv zeta. destruct (Spec.constructible req) eqn:Hc.
  { exact (createWorkerRequest_returns req Hc). }
  unfold Spec.constructible in Hc. unfold Index.createWorkerRequest.
  fold (Spec.absolute_url req).
  destruct (forallb Spec.settable (Node.im_headers req)) eqn:Hall.
  2:{ destruct (copy_request_headers_throws _ Fetch.Headers_empty Hall)
        as (msg & ->). by exists msg. }
  destruct (copy_request_headers_returns _ Fetch.Headers_empty Hall)
    as (headers & -> & _).
  cbn [mbind Exc_bind andb] in *. unfold Fetch.Request_new, Fetch.URL_new.
  destruct (URL_parse (Spec.absolute_url req) None) as [u|]; [|by eexists].
  rewrite bool_decide_eq_true_2 in Hc by by eexists.
  cbn [mbind Exc_bind Fetch.init_method Fetch.init_headers Fetch.init_body andb] in *.
  destruct (URL_has_credentials _); [by eexists|].
  destruct (Fetch.is_token _); [|by eexists].
  destruct (Fetch.forbidden_method _); [by eexists|].
  cbn [negb andb] in Hc.
  destruct (Fetch.one_of ["GET"; "HEAD"] (Js.nullish (Node.im_method req) "GET"));
    [done|].
  cbn [orb] in Hc. apply negb_false_iff in Hc. rewrite Hc. by eexists.
Qed.

End Bridge.

(** C5 at a POST request with a JSON body of two chunks *)
Lemma createWorkerRequest_spec_witness :
  ∃ request,
    Index.createWorkerRequest (pf := Sample.platform true) Sample.post = Return request
    ∧ Fetch.request_url request
      = mkURL "http://localhost:5173" "/app/items" "?x=1" ""
    ∧ Fetch.request_method request = "POST"
    ∧ Fetch.Headers_get "Accept" (Fetch.request_headers request)
      = Some "text/html,application/json"
    ∧ Fetch.Headers_get "x-unset" (Fetch.request_headers request) = None
    ∧ Fetch.request_body request = Some [Byte.x7b; Byte.x7d].
Proof.
  pose proof (createWorkerRequest_spec (pf := Sample.platform true) Sample.post) as H.
  cbv zeta in H.
  change (Spec.constructible (pf := Sample.platform true) Sample.post) with true in H.
  destruct H as (request & Hr & Hu & Hm & Hh & Hb).
  exists request. split; [exact Hr|]. split; [|split; [exact Hm|]].
  - symmetry in Hu. by injection Hu.
  - split; [by rewrite Hh|]. split; [by rewrite Hh | exact Hb].
Defined.

(** The claim as the specification words it asks a worker request of every
    native request.  A [TRACE] request, which Node's HTTP parser accepts,
    is one for which [new Request] throws, so that none is built. *)
Lemma createWorkerRequest_trace_counterexample :
  Index.createWorkerRequest (pf := Sample.platform true) Sample.trace
  = Throw (TypeError "forbidden method")
  ∧ Spec.constructible (pf := Sample.platform true) Sample.trace = false.
Proof. split; reflexivity. Qed.

(** ** The response bridge *)

Lemma lower_char_idemp c : Js.lower_char (Js.lower_char c) = Js.lower_char c.
Proof. by destruct c as [[] [] [] [] [] [] [] []]. Qed.

Lemma toLowerCase_idemp s : Js.toLowerCase (Js.toLowerCase s) = Js.toLowerCase s.
Proof.
  induction s as [|c s IH]; [done|].
  cbn [Js.toLowerCase]. by rewrite lower_char_idemp, IH.
Qed.

Lemma In_insert_sorted n m l :
  In n (Fetch.insert_sorted m l) ↔ n = m ∨ In n l.
Proof.
  induction l as [|x l IH]; cbn [Fetch.insert_sorted].
  - cbn. intuition.
  - destruct (String.eqb_spec m x) as [->|Hne]; [cbn; intuition|].
    destruct (String.leb m x); cbn; cbn in IH; intuition.
Qed.

Lemma In_sorted_names n (h : Fetch.Headers) :
  In n (Fetch.sorted_names h) ↔ In n (map fst h).
Proof.
  unfold Fetch.sorted_names.
  induction (map fst h) as [|x l IH]; [done|].
  cbn [foldr]. rewrite In_insert_sorted. cbn. intuition.
Qed.

Lemma values_not_nil n (h : Fetch.Headers) :
  Fetch.Headers_values n h ≠ [] → In n (map fst h).
Proof.
  unfold Fetch.Headers_values.
  induction h as [|e h IH]; [done|]. cbn [List.filter].
  destruct (Fetch.name_is n e) eqn:En.
  - intros _. left. by apply String.eqb_eq.
  - intros H. right. by apply IH.
Qed.

Lemma Headers_get_lower name h :
  Fetch.Headers_get (Js.toLowerCase name) h = Fetch.Headers_get name h.
Proof. unfold Fetch.Headers_get. by rewrite toLowerCase_idemp. Qed.

Lemma Headers_get_same_name n m h :
  Js.toLowerCase n = Js.toLowerCase m →
  Fetch.Headers_get n h = Fetch.Headers_get m h.
Proof. unfold Fetch.Headers_get. by intros ->. Qed.

Section Response.
Context {pf : Platform}.

(** An entry of the iteration is a [set-cookie] value of its own or a name
    with its combined value. *)
Lemma Headers_entries_In e h :
  In e (Fetch.Headers_entries h) →
  fst e = "set-cookie" ∨ Fetch.Headers_get (fst e) h = Some (snd e).
Proof.
  unfold Fetch.Headers_entries. rewrite in_flat_map.
  intros (n & _ & He).
  destruct (has_getSetCookie && String.eqb n "set-cookie") eqn:Hc.
  - apply andb_prop in Hc as [_ ->%String.eqb_eq].
    apply in_map_iff in He as (v & <- & _). by left.
  - destruct (Fetch.Headers_get n h) as [v|] eqn:Hg; [|done].
    destruct He as [<-|[]]. by right.
Qed.

(** Every name other than [set-cookie] that has a value is iterated. *)
Lemma Headers_entries_has name v h :
  Fetch.Headers_get name h = Some v →
  Js.toLowerCase name ≠ "set-cookie" →
  In (Js.toLowerCase name, v) (Fetch.Headers_entries h).
Proof.
  intros Hg Hne. unfold Fetch.Headers_entries. rewrite in_flat_map.
  exists (Js.toLowerCase name). split.
  - apply In_sorted_names, values_not_nil.
    unfold Fetch.Headers_get in Hg.
    by destruct (Fetch.Headers_values (Js.toLowerCase name) h).
  - apply String.eqb_neq in Hne. rewrite Hne, andb_false_r.
    rewrite Headers_get_lower, Hg. by left.
Qed.

Lemma copy_status l : ∀ res,
  Node.res_statusCode (foldl Index.copy_header res l) = Node.res_statusCode res.
Proof.
  induction l as [|e l IH]; intros res; [done|].
  cbn [foldl]. rewrite IH. unfold Index.copy_header.
  by destruct (String.eqb (Js.toLowerCase (fst e)) "set-cookie").
Qed.

Lemma copy_lookup l : ∀ res k,
  snd <$> Node.res_headers (foldl Index.copy_header res l) !! k
  = foldl (fun acc e => if Spec.copied k e then Some (Node.HString (snd e)) else acc)
      (snd <$> Node.res_headers res !! k) l.
Proof.
  induction l as [|e l IH]; intros res k; [done|].
  cbn [foldl]. rewrite IH. f_equal. unfold Index.copy_header, Spec.copied.
  destruct (String.eqb (Js.toLowerCase (fst e)) "set-cookie"); [done|].
  cbn [negb andb Node.setHeader Node.res_headers].
  destruct (String.eqb_spec (Js.toLowerCase (fst e)) k) as [<-|Hne].
  - by rewrite lookup_insert_eq.
  - by rewrite lookup_insert_ne.
Qed.

Lemma fold_last_none {A B} (hit : A → bool) (val : A → B) l : ∀ init,
  (∀ e, In e l → hit e = false) →
  foldl (fun acc e => if hit e then Some (val e) else acc) init l = init.
Proof.
  induction l as [|x l IH]; intros init Hl; [done|].
  cbn [foldl]. rewrite (Hl x) by by left. apply IH.
  intros e He. apply Hl. by right.
Qed.

Lemma fold_last_some {A B} (hit : A → bool) (val : A → B) (w : B) l : ∀ init,
  (∀ e, In e l → hit e = true → val e = w) →
  (init = Some w ∨ ∃ e, In e l ∧ hit e = true) →
  foldl (fun acc e => if hit e then Some (val e) else acc) init l = Some w.
Proof.
  induction l as [|x l IH]; intros init Hall Hex.
  - destruct Hex as [->|(e & [] & _)]. done.
  - cbn [foldl]. apply IH.
    + intros e He. apply Hall. by right.
    + destruct (hit x) eqn:Hx.
      * left. f_equal. apply Hall; [by left | done].
      * destruct Hex as [->|(e & [<-|He] & Hhit)]; [by left | congruence |].
        right. by exists e.
Qed.

Lemma copy_entries res h name :
  Js.toLowerCase name ≠ "set-cookie" →
  snd <$> Node.res_headers (foldl Index.copy_header res (Fetch.Headers_entries h))
          !! Js.toLowerCase name
  = match Fetch.Headers_get name h with
    | Some v => Some (Node.HString v)
    | None => snd <$> Node.res_headers res !! Js.toLowerCase name
    end.
Proof.
  intros Hne. rewrite copy_lookup.
  assert (Hval : ∀ e, In e (Fetch.Headers_entries h) →
            Spec.copied (Js.toLowerCase name) e = true →
            Fetch.Headers_get name h = Some (snd e)).
  { intros e He [Hc Hk%String.eqb_eq]%andb_prop.
    apply negb_true_iff, String.eqb_neq in Hc.
    destruct (Headers_entries_In _ _ He) as [E|E].
    - exfalso. apply Hc. by rewrite E.
    - rewrite <- E. apply Headers_get_same_name.
      by rewrite Hk. }
  destruct (Fetch.Headers_get name h) as [v|] eqn:Hg.
  - apply (fold_last_some _ (fun e => Node.HString (snd e))).
    + intros e He Hc. specialize (Hval e He Hc). congruence.
    + right. exists (Js.toLowerCase name, v). split.
      * by apply Headers_entries_has.
      * unfold Spec.copied. cbn [fst]. rewrite toLowerCase_idemp.
        apply String.eqb_neq in Hne. by rewrite Hne, String.eqb_refl.
  - apply fold_last_none. intros e He.
    destruct (Spec.copied (Js.toLowerCase name) e) eqn:Hc; [|done].
    by specialize (Hval e He Hc).
Qed.

Lemma copy_entries_cookie res l :
  snd <$> Node.res_headers (foldl Index.copy_header res l) !! "set-cookie"
  = snd <$> Node.res_headers res !! "set-cookie".
Proof.
  rewrite copy_lookup. apply fold_last_none.
  intros e _. unfold Spec.copied.
  by destruct (String.eqb (Js.toLowerCase (fst e)) "set-cookie").
Qed.

(** C6.  [sendResponse] copies the status code.  A header other than
    [set-cookie] that the response has is set to its value; [set-cookie] is
    set to the list of [getSetCookie()] where the platform has that
    accessor, each value a header line of its own, and otherwise to the
    single value of [get("set-cookie")] when that is a non-empty string.
    A response with the cookies [a=1] and [b=2] gives both lines. *)
Theorem sendResponse_spec (res : Node.ServerResponse) (response : Fetch.Response)
    (name : string) :
  let out := Index.sendResponse res response in
  let h := Fetch.response_headers response in
  Node.res_statusCode out = Fetch.response_status response
  ∧ Node.getHeader out name
    = (if String.eqb (Js.toLowerCase name) "set-cookie"
       then if has_getSetCookie
            then Some (Node.HArray (Fetch.Headers_getSetCookie h))
            else match Fetch.Headers_get "set-cookie" h with
                 | Some v =>
                     if String.eqb v "" then Node.getHeader res name
                     else Some (Node.HString v)
                 | None => Node.getHeader res name
                 end
       else match Fetch.Headers_get name h with
            | Some v => Some (Node.HString v)
            | None => Node.getHeader res name
            end)
  ∧ (if has_getSetCookie
     then Node.header_lines out "set-cookie" = Fetch.Headers_getSetCookie h
     else True)
  ∧ Node.header_lines
      (Index.sendResponse (pf := Sample.platform true) Sample.fresh_response Sample.page)
      "set-cookie"
    = ["a=1"; "b=2"].
Proof.
  cbv zeta. unfold Index.sendResponse.
  set (h := Fetch.response_headers response).
  set (res1 := Node.mkServerResponse (Fetch.response_status response) _ _ _).
  set (res2 := match (if has_getSetCookie then _ else _) with
               | Some v => _ | None => res1 end).
  assert (Hcookie : snd <$> Node.res_headers res2 !! "set-cookie"
                    = if has_getSetCookie
                      then Some (Node.HArray (Fetch.Headers_getSetCookie h))
                      else match Fetch.Headers_get "set-cookie" h with
                           | Some v =>
                               if String.eqb v ""
                               then snd <$> Node.res_headers res !! "set-cookie"
                               else Some (Node.HString v)
                           | None => snd <$> Node.res_headers res !! "set-cookie"
                           end).
  { subst res2. destruct has_getSetCookie.
    - cbn [Node.truthy]. unfold Node.setHeader.
      cbn [Node.res_headers]. by rewrite lookup_insert_eq.
    - destruct (Fetch.Headers_get "set-cookie" h) as [v|]; [|done].
      cbn [fmap option_fmap option_map Node.truthy].
      destruct (String.eqb v ""); [done|].
      unfold Node.setHeader.
      cbn [Node.res_headers negb]. by rewrite lookup_insert_eq. }
  assert (Hother : ∀ k, k ≠ "set-cookie" →
            Node.res_headers res2 !! k = Node.res_headers res !! k).
  { intros k Hk. subst res2.
    destruct (if has_getSetCookie then _ else _) as [v|]; [|done].
    destruct (Node.truthy v); [|done].
    unfold Node.setHeader. cbn [Node.res_headers].
    by rewrite lookup_insert_ne. }
  split; [|split; [|split]].
  - cbn [Node.res_statusCode]. rewrite copy_status. subst res2.
    destruct (if has_getSetCookie then _ else _) as [v|]; [|done].
    by destruct (Node.truthy v).
  - unfold Node.getHeader. cbn [Node.res_headers].
    destruct (String.eqb_spec (Js.toLowerCase name) "set-cookie") as [E|Hne].
    + by rewrite E, copy_entries_cookie, Hcookie.
    + rewrite copy_entries by done. by rewrite Hother.
  - destruct has_getSetCookie eqn:Hmulti; [|done].
    unfold Node.header_lines, Node.getHeader. cbn [Node.res_headers].
    change (Js.toLowerCase "set-cookie") with "set-cookie".
    by rewrite copy_entries_cookie, Hcookie.
  - by vm_compute.
Qed.

End Response.

(** ** The client-script injector *)



Lemma includes_cons c s sub :
  Js.includes (String c s) sub = Js.startsWith (String c s) sub || Js.includes s sub.
Proof. reflexivity. Qed.




Section Injector.
Context {pf : Platform}.


End Injector.



(** ** The pattern matcher *)

Lemma RegExp_search_some m s n : ∀ i,
  is_Some (Index.RegExp_search m false s i n)
  ↔ ∃ j e, i ≤ j ∧ j < i + n ∧ m s j = Some e.
Proof.
  induction n as [|n IH]; intros i; cbn [Index.RegExp_search].
  - split; [by intros [? ?] | intros (j & e & ? & ? & _); lia].
  - destruct (m s i) as [e|] eqn:Hi.
    + split; [intros _|by eauto]. exists i, e. repeat split; [lia..|done].
    + rewrite IH. split.
      * intros (j & e & ? & ? & Hj). exists j, e. repeat split; [lia..|done].
      * intros (j & e & ? & ? & Hj). exists j, e.
        destruct (decide (j = i)) as [->|]; [congruence|].
        repeat split; [lia..|done].
Qed.

Section Patterns.
Context {pf : Platform}.

Lemma matchPattern_stateless p target :
  Spec.stateless p = true →
  snd (Index.matchPattern p target) = p
  ∧ (fst (Index.matchPattern p target) = true ↔ Spec.pattern_matches p target).
Proof.
  destruct p as [r|g]; cbn [Spec.stateless Index.matchPattern Spec.pattern_matches].
  - intros Hr%negb_true_iff. unfold Index.RegExp_test. rewrite Hr.
    apply orb_false_elim in Hr as [_ ->].
    rewrite Nat.sub_0_r.
    pose proof (RegExp_search_some (Index.re_matcher r) target
                  (S (String.length target)) 0) as Hs.
    destruct (Index.RegExp_search _ _ _ _ _) as [e|]; cbn [fst snd].
    + split; [done|]. split; [intros _|done].
      destruct (proj1 Hs) as (j & e' & _ & Hj & Hm); [by eexists|].
      exists j, e'. split; [lia|done].
    + split; [done|]. split; [done|].
      intros (j & e & Hj & Hm).
      destruct (proj2 Hs) as [? [=]]. exists j, e. repeat split; [lia..|done].
  - intros _. by cbn.
Qed.

Lemma some_matchPattern_stateless patterns target :
  forallb Spec.stateless patterns = true →
  snd (Index.some_matchPattern patterns target) = patterns
  ∧ (fst (Index.some_matchPattern patterns target) = true
     ↔ ∃ p, In p patterns ∧ Spec.pattern_matches p target).
Proof.
  induction patterns as [|p ps IH]; cbn [forallb Index.some_matchPattern].
  - intros _. split; [done|]. split; [done | by intros (? & [] & _)].
  - intros [Hp Hps]%andb_prop.
    destruct (matchPattern_stateless p target Hp) as [Hsnd Hfst].
    destruct (IH Hps) as [IHsnd IHfst].
    destruct (Index.matchPattern p target) as [b p'].
    cbn [fst snd] in Hsnd, Hfst. subst p'.
    destruct b.
    + cbn [fst snd]. split; [done|]. split; [intros _|done].
      exists p. split; [by left | by apply Hfst].
    + destruct (Index.some_matchPattern ps target) as [b' ps'].
      cbn [fst snd] in *. subst ps'. split; [done|].
      rewrite IHfst. split.
      * intros (q & Hq & Hm). exists q. split; [by right | done].
      * intros (q & [<-|Hq] & Hm).
        -- apply Hfst in Hm. done.
        -- by exists q.
Qed.

(** C8, as amended.  For a list of patterns none of which is a [RegExp] with
    the global or the sticky flag, and for every path: the matcher answers
    true exactly when some pattern of the list matches the path under the
    rule of its kind, [shouldIgnorePath] doing so on the normalized path;
    it answers false for the empty list; it leaves the patterns as they
    were, so that a second call with the same arguments gives the same
    answer. *)
Theorem matchPattern_spec (patterns : list Index.Pattern) (path : string) :
  forallb Spec.stateless patterns = true →
  (fst (Index.some_matchPattern patterns path) = true
   ↔ ∃ p, In p patterns ∧ Spec.pattern_matches p path)
  ∧ (fst (Index.shouldIgnorePath path patterns) = true
     ↔ ∃ p, In p patterns ∧ Spec.pattern_matches p (normalizePath path))
  ∧ fst (Index.some_matchPattern [] path) = false
  ∧ fst (Index.shouldIgnorePath path []) = false
  ∧ snd (Index.some_matchPattern patterns path) = patterns
  ∧ snd (Index.shouldIgnorePath path patterns) = patterns
  ∧ Index.shouldIgnorePath path (snd (Index.shouldIgnorePath path patterns))
    = Index.shouldIgnorePath path patterns.
Proof.
  intros Hp. unfold Index.shouldIgnorePath.
  destruct (some_matchPattern_stateless patterns path Hp) as [Hs Hf].
  destruct (some_matchPattern_stateless patterns (normalizePath path) Hp)
    as [Hs' Hf'].
  repeat split; try done; try apply Hf; try apply Hf'.
  by rewrite Hs'.
Qed.

End Patterns.

(** C8 at the patterns [/\.git/] and ["/proj/.mf"] *)
Lemma matchPattern_spec_witness :
  fst (Index.shouldIgnorePath (pf := Sample.platform true) "/proj/.git/config"
         [Index.PRegExp (Sample.literal_regexp ".git" false); Index.PGlob "/proj/.mf"])
  = true
  ∧ fst (Index.shouldIgnorePath (pf := Sample.platform true) "/proj/src/a.ts"
           [Index.PRegExp (Sample.literal_regexp ".git" false); Index.PGlob "/proj/.mf"])
    = false.
Proof.
  split.
  - apply (matchPattern_spec (pf := Sample.platform true)
             [Index.PRegExp (Sample.literal_regexp ".git" false); Index.PGlob "/proj/.mf"]
             "/proj/.git/config" eq_refl).
    eexists. split; [by left|]. exists 6, 10. split; [vm_compute; lia | reflexivity].
  - destruct (matchPattern_spec (pf := Sample.platform true)
             [Index.PRegExp (Sample.literal_regexp ".git" false); Index.PGlob "/proj/.mf"]
             "/proj/src/a.ts" eq_refl) as (_ & _ & _ & _ & _ & _ & Hsame).
    by vm_compute.
Defined.

(** C8, the claim as stated fails: with the pattern [/a/g] the first call
    on the path ["a"] answers true and moves [lastIndex], and the second
    call with the same arguments answers false. *)
Lemma matchPattern_global_flag_counterexample :
  fst (Index.shouldIgnorePath (pf := Sample.platform true) "a"
         [Index.PRegExp (Sample.literal_regexp "a" true)]) = true
  ∧ fst (Index.shouldIgnorePath (pf := Sample.platform true) "a"
           (snd (Index.shouldIgnorePath (pf := Sample.platform true) "a"
                   [Index.PRegExp (Sample.literal_regexp "a" true)]))) = false.
Proof. by vm_compute. Qed.

(** ** The middleware *)

Section Middleware.
Context {pf : Platform}.

Lemma safeParseUrlPath_total value :
  Utils.safeParseUrlPath value
  = Return (url_pathname <$> URL_parse value (Some "http://localhost")).
Proof.
  unfold Utils.safeParseUrlPath, Fetch.URL_new.
  by destruct (URL_parse value (Some "http://localhost")).
Qed.

Lemma guard_rejects_undefined base :
  Utils.normalizeBasePath base ≠ "" →
  Utils.createBasePathGuard base None = false.
Proof.
  intros HB%String.eqb_neq. unfold Utils.createBasePathGuard. by rewrite HB.
Qed.

(** C9, as amended.  [safeParseUrlPath] never throws: it returns the
    pathname of the parsed URL, and [undefined] when the URL does not parse.
    When the configured base normalizes to a non-empty string, the
    middleware hands a request whose URL does not parse to the host dev
    server, and gives nothing to the worker. *)
Theorem unparseable_path_spec (o : Index.Options) (st : Index.PluginState)
    (req : Node.IncomingMessage) (res : Node.ServerResponse) (url : string) :
  Node.im_url req = Some url →
  URL_parse url (Some "http://localhost") = None →
  Utils.normalizeBasePath (Index.opt_base o) ≠ "" →
  (∀ value,
     Utils.safeParseUrlPath value
     = Return (url_pathname <$> URL_parse value (Some "http://localhost")))
  ∧ Utils.safeParseUrlPath url = Return None
  ∧ Index.completion (Index.middleware o st req res) = Index.Next
  ∧ Index.dispatched (Index.middleware o st req res) = None.
Proof.
  intros Hurl Hparse HB.
  assert (Hnone : Utils.safeParseUrlPath url = Return None).
  { by rewrite safeParseUrlPath_total, Hparse. }
  split; [apply safeParseUrlPath_total|]. split; [done|].
  unfold Index.middleware. rewrite Hurl.
  destruct (Index.mf st) as [emulator|]; [|done].
  destruct (String.eqb url ""); [done|].
  unfold Index.is_public_file. rewrite Hnone.
  assert (Hfile : (if String.eqb (Index.publicDirPath st) ""
                   then Return false
                   else pathname ← Return None;
                        match pathname with
                        | Some p =>
                            if String.eqb p "" then Return false
                            else Return (fs_isFile (path_join (Index.publicDirPath st) p))
                        | None => Return false
                        end) = Return false).
  { by destruct (String.eqb (Index.publicDirPath st) ""). }
  rewrite Hfile. cbn [Index.or_next_error].
  destruct (Index.some_matchPattern (Index.excludePatterns st) url) as [[] ps];
    [done|].
  by rewrite (guard_rejects_undefined _ HB).
Qed.

(** C10.  While no emulator exists, or when the request has no URL (it is
    absent or empty), the middleware calls [next()] at once: nothing is
    parsed or matched, nothing is given to the worker and no error is
    raised. *)
Theorem middleware_entry_check (o : Index.Options) (st : Index.PluginState)
    (req : Node.IncomingMessage) (res : Node.ServerResponse) :
  Index.mf st = None ∨ Node.im_url req = None ∨ Node.im_url req = Some "" →
  Index.middleware o st req res
  = Index.mkOutcome Index.Next None (Index.excludePatterns st).
Proof.
  unfold Index.middleware. intros [->|[->| ->]].
  - by destruct (Node.im_url req).
  - done.
  - by destruct (Index.mf st).
Qed.

End Middleware.

(** C9 at the request line [GET //] with the base [/app] *)
Lemma unparseable_path_spec_witness :
  Utils.safeParseUrlPath (pf := Sample.platform true) "//" = Return None
  ∧ Index.completion
      (Index.middleware (pf := Sample.platform true)
         (Index.mkOptions (Some "/app") None)
         (Index.mkPluginState (Some Sample.worker) "/proj/public" "/" [])
         (Sample.get "//") Sample.fresh_response)
    = Index.Next.
Proof.
  destruct (unparseable_path_spec (pf := Sample.platform true)
              (Index.mkOptions (Some "/app") None)
              (Index.mkPluginState (Some Sample.worker) "/proj/public" "/" [])
              (Sample.get "//") Sample.fresh_response "//" eq_refl eq_refl)
    as (_ & Hnone & Hnext & _).
  - by vm_compute.
  - by split.
Defined.

(** C9, the claim as stated fails: without a base, the request line [GET //]
    does not parse as a URL path and is forwarded to the worker. *)
Lemma unparseable_path_forwarded_counterexample :
  Utils.safeParseUrlPath (pf := Sample.platform true) "//" = Return None
  ∧ Index.dispatched
      (Index.middleware (pf := Sample.platform true)
         (Index.mkOptions None None)
         (Index.mkPluginState (Some Sample.worker) "/proj/public" "/" [])
         (Sample.get "//") Sample.fresh_response)
    = Some (Fetch.mkRequest (mkURL "http://localhost:5173" "//" "" "") "GET"
              [("host", "localhost:5173")] None)
  ∧ ∃ sent,
      Index.completion
        (Index.middleware (pf := Sample.platform true)
           (Index.mkOptions None None)
           (Index.mkPluginState (Some Sample.worker) "/proj/public" "/" [])
           (Sample.get "//") Sample.fresh_response)
      = Index.Sent sent.
Proof.
  split; [done|]. split; [by vm_compute|]. eexists. by vm_compute.
Qed.

(** C10 before the first build has made an emulator *)
Lemma middleware_entry_check_witness :
  Index.middleware (pf := Sample.platform true)
    (Index.mkOptions None None)
    (Index.mkPluginState None "/proj/public" "/" [])
    (Sample.get "/") Sample.fresh_response
  = Index.mkOutcome Index.Next None [].
Proof.
  apply (middleware_entry_check (pf := Sample.platform true)). by left.
Defined.

(** ** The rebuild cycle *)

Section RebuildFacts.
Import Rebuild.

Lemma Inv_init : Inv init.
Proof. right. by repeat split. Qed.

Lemma Inv_rebuildWorker s : Inv s → Inv (rebuildWorker s).
Proof.
  unfold rebuildWorker. intros [[Hp [a Ha]]|(Hp & Hq & Hs)]; rewrite Hp; left.
  - split; [done|]. by exists a.
  - split; [done|]. exists AwaitBuild. cbn. by rewrite Hs.
Qed.

Lemma Inv_finally s :
  suspended s = [] → Inv (finally_block s).
Proof.
  intros Hs. unfold finally_block. cbn [buildQueued buildInProgress].
  destruct (buildQueued s).
  - left. cbn. split; [done|]. exists AwaitBuild. by rewrite Hs.
  - right. by repeat split.
Qed.

Lemma Inv_step e s : Inv s → Inv (step e s).
Proof.
  intros HI. destruct e as [|i r c]; [by apply Inv_rebuildWorker|].
  cbn [step]. destruct (suspended s !! i) as [a|] eqn:Hi; [|done].
  destruct HI as [[Hp [a' Ha]]|(Hp & Hq & Hs)]; [|by rewrite Hs in Hi].
  rewrite Ha in Hi. destruct i as [|i]; [|done]. cbn in Hi. simplify_eq.
  rewrite Ha. cbn [delete list_delete].
  destruct a, r; cbn [resume emulator]; try (by apply Inv_finally).
  destruct (emulator s).
  - left. cbn. split; [done|]. by exists AwaitSetOptions.
  - destruct c; by apply Inv_finally.
Qed.

Lemma Inv_run evs : ∀ s, Inv s → Inv (run evs s).
Proof.
  induction evs as [|e evs IH]; intros s HI; [done|].
  cbn [run foldl]. apply IH. by apply Inv_step.
Qed.

Lemma call_while_building s :
  buildInProgress s = true →
  step Call s
  = mkState true true (emulator s) (suspended s) (builds s) (reloads s).
Proof. intros Hp. cbn [step]. unfold rebuildWorker. by rewrite Hp. Qed.

Lemma calls_while_building n : ∀ s,
  buildInProgress s = true →
  run (repeat Call (S n)) s
  = mkState true true (emulator s) (suspended s) (builds s) (reloads s).
Proof.
  induction n as [|n IH]; intros s Hp.
  - by apply call_while_building.
  - change (run (repeat Call (S (S n))) s)
      with (run (repeat Call (S n)) (step Call s)).
    rewrite (call_while_building s Hp). by rewrite IH.
Qed.

Lemma cycle_end s r c :
  ends_cycle s r = true →
  ∃ e reloaded,
    step (Settle 0 r c) s
    = if buildQueued s then rebuildWorker (idle s e reloaded) else idle s e reloaded.
Proof.
  unfold ends_cycle. intros He.
  destruct (suspended s) as [|a [|? ?]] eqn:Hs; [done| |by destruct a].
  cbn [step]. rewrite Hs. cbn [lookup list_lookup delete list_delete].
  destruct a, r; cbn [resume emulator]; unfold idle.
  - destruct (emulator s); [done|]. destruct c.
    + exists true, (S (reloads s)). unfold finally_block. cbn.
      by destruct (buildQueued s).
    + exists false, (reloads s). unfold finally_block. cbn.
      by destruct (buildQueued s).
  - exists (emulator s), (reloads s). unfold finally_block. cbn.
    by destruct (buildQueued s).
  - exists (emulator s), (S (reloads s)). unfold finally_block. cbn.
    by destruct (buildQueued s).
  - exists (emulator s), (reloads s). unfold finally_block. cbn.
    by destruct (buildQueued s).
Qed.

End RebuildFacts.

(** C1.  In every state the event loop can reach: at most one bundler
    invocation is in flight, and at most one activation of [rebuildWorker]
    is suspended; a call that arrives while a build is in progress only sets
    the queued flag, and so do any number of such calls; when the cycle in
    progress ends, by success or by a throw, the flag is cleared and, if the
    queued flag was set, exactly one follow-up build starts, whatever the
    number of calls that set it. *)
Theorem rebuild_coalescing (evs : list Rebuild.Event) (n : nat)
    (r : Rebuild.Settled) (ctor_ok : bool) :
  let s := Rebuild.run evs Rebuild.init in
  let busy :=
    Rebuild.mkState true true (Rebuild.emulator s) (Rebuild.suspended s)
      (Rebuild.builds s) (Rebuild.reloads s) in
  let s' := Rebuild.step (Rebuild.Settle 0 r ctor_ok) s in
  Rebuild.in_flight s ≤ 1
  ∧ length (Rebuild.suspended s) ≤ 1
  ∧ (Rebuild.buildInProgress s = false →
       Rebuild.buildQueued s = false ∧ Rebuild.suspended s = []
       ∧ Rebuild.builds (Rebuild.step Rebuild.Call s) = S (Rebuild.builds s)
       ∧ Rebuild.in_flight (Rebuild.step Rebuild.Call s) = 1)
  ∧ (Rebuild.buildInProgress s = true →
       Rebuild.step Rebuild.Call s = busy
       ∧ Rebuild.run (repeat Rebuild.Call (S n)) s = busy)
  ∧ (Rebuild.ends_cycle s r = true →
       if Rebuild.buildQueued s
       then Rebuild.buildInProgress s' = true
            ∧ Rebuild.buildQueued s' = false
            ∧ Rebuild.suspended s' = [Rebuild.AwaitBuild]
            ∧ Rebuild.builds s' = S (Rebuild.builds s)
       else Rebuild.buildInProgress s' = false
            ∧ Rebuild.buildQueued s' = false
            ∧ Rebuild.suspended s' = []
            ∧ Rebuild.builds s' = Rebuild.builds s)
  ∧ (Rebuild.ends_cycle s r = true →
       let after :=
         Rebuild.step (Rebuild.Settle 0 r ctor_ok)
           (Rebuild.run (repeat Rebuild.Call (S n)) s) in
       Rebuild.builds after = S (Rebuild.builds s)
       ∧ Rebuild.in_flight after = 1
       ∧ Rebuild.buildQueued after = false).
Proof.
  cbv zeta.
  pose proof (Inv_run evs _ Inv_init) as HI.
  set (s := Rebuild.run evs Rebuild.init) in *.
  assert (Hbusy : Rebuild.buildInProgress s = true →
            Rebuild.run (repeat Rebuild.Call (S n)) s
            = Rebuild.mkState true true (Rebuild.emulator s) (Rebuild.suspended s)
                (Rebuild.builds s) (Rebuild.reloads s))
    by apply calls_while_building.
  assert (Hend : Rebuild.ends_cycle s r = true → Rebuild.buildInProgress s = true).
  { unfold Rebuild.ends_cycle. intros He.
    destruct HI as [[Hp _]|(_ & _ & Hs)]; [done|]. by rewrite Hs in He. }
  split; [|split; [|split; [|split; [|split]]]].
  - unfold Rebuild.in_flight.
    destruct HI as [[_ [a ->]]|(_ & _ & ->)]; [|vm_compute; lia].
    destruct a; vm_compute; lia.
  - destruct HI as [[_ [a ->]]|(_ & _ & ->)]; cbn; lia.
  - intros Hp. destruct HI as [[Hp' _]|(_ & Hq & Hs)]; [congruence|].
    cbn [Rebuild.step]. unfold Rebuild.rebuildWorker, Rebuild.in_flight.
    rewrite Hp, Hs. by cbn.
  - intros Hp. split; [|by apply Hbusy].
    cbn [Rebuild.step]. unfold Rebuild.rebuildWorker. by rewrite Hp.
  - intros He. destruct (cycle_end s r ctor_ok He) as (e & k & ->).
    by destruct (Rebuild.buildQueued s).
  - intros He. rewrite (Hbusy (Hend He)).
    set (b := Rebuild.mkState true true _ _ _ _).
    assert (Heb : Rebuild.ends_cycle b r = true) by done.
    destruct (cycle_end b r ctor_ok Heb) as (e & k & ->).
    by cbn.
Qed.

(** C1 on the run: a first call, three more calls while the build is in
    flight, and the build failing *)
Lemma rebuild_coalescing_witness :
  Rebuild.builds
    (Rebuild.step (Rebuild.Settle 0 Rebuild.Rejected true)
       (Rebuild.run (repeat Rebuild.Call 3)
          (Rebuild.run [Rebuild.Call] Rebuild.init)))
  = 2
  ∧ Rebuild.in_flight
      (Rebuild.step (Rebuild.Settle 0 Rebuild.Rejected true)
         (Rebuild.run (repeat Rebuild.Call 3)
            (Rebuild.run [Rebuild.Call] Rebuild.init)))
    = 1.
Proof.
  destruct (rebuild_coalescing [Rebuild.Call] 2 Rebuild.Rejected true)
    as (_ & _ & _ & _ & _ & Hcoalesce).
  destruct (Hcoalesce eq_refl) as (Hbuilds & Hflight & _).
  by split.
Defined.

(** * Further properties *)

(** ** [src/utils.ts] *)

Lemma replace_fixed s :
  Js.has_double_slash s = false → Js.replace_slash_runs s = s.
Proof.
  induction s as [|c s IH]; [done|].
  cbn [Js.has_double_slash Js.replace_slash_runs].
  intros [H1 H2]%orb_false_elim.
  destruct (Js.is_slash c) eqn:Hc.
  - cbn [andb] in H1. rewrite H1, (IH H2).
    apply Ascii.eqb_eq in Hc. by rewrite Hc.
  - by rewrite (IH H2).
Qed.

Lemma ends_with_slash_cons c s :
  Js.ends_with_slash (String c s)
  = if String.eqb s "" then Js.is_slash c else Js.ends_with_slash s.
Proof. by destruct s. Qed.

Lemma strip_fixed s :
  Js.ends_with_slash s = false → Js.strip_trailing_slashes s = s.
Proof.
  induction s as [|c s IH]; [done|].
  rewrite ends_with_slash_cons. cbn [Js.strip_trailing_slashes].
  destruct (String.eqb_spec s "") as [->|Hne].
  - intros ->. done.
  - intros Hs. rewrite (IH Hs).
    destruct (Js.all_slashes s) eqn:Ha; [|by rewrite andb_false_r].
    apply strip_nil_iff in Ha. rewrite (IH Hs) in Ha. done.
Qed.

Lemma normalizeBasePath_not_slash base : Utils.normalizeBasePath base ≠ "/".
Proof.
  destruct base as [b|]; [|done].
  destruct (Js.all_slashes b) eqn:Hb.
  - by rewrite normalizeBasePath_all_slashes.
  - destruct (normalizeBasePath_shape b Hb) as (_ & _ & He).
    intros E. by rewrite E in He.
Qed.

Lemma normalizeBasePath_idemp base :
  Utils.normalizeBasePath (Some (Utils.normalizeBasePath base))
  = Utils.normalizeBasePath base.
Proof.
  destruct base as [b|]; [|done].
  destruct (Js.all_slashes b) eqn:Hb.
  - rewrite (normalizeBasePath_all_slashes b Hb). reflexivity.
  - destruct (normalizeBasePath_shape b Hb) as (Hs & Hd & He).
    set (r := Utils.normalizeBasePath (Some b)) in *.
    unfold Utils.normalizeBasePath at 1.
    destruct (String.eqb_spec r "") as [E|_]; [by rewrite E in Hs|].
    destruct (String.eqb_spec r "/") as [E|_]; [by rewrite E in He|].
    cbn [orb]. rewrite Hs, (replace_fixed _ Hd). by apply strip_fixed.
Qed.

(** X1.  Normalizing is idempotent, so a base may be written in any of its
    spellings: the guard and the rewriter made from a base are those made
    from its normal form.  The base that the [config] hook hands to Vite
    has the normal form of the option. *)
Theorem normalizeBasePath_idempotent (base pathname : option string)
    (request : Fetch.Request) :
  Utils.normalizeBasePath (Some (Utils.normalizeBasePath base))
  = Utils.normalizeBasePath base
  ∧ Utils.createBasePathGuard (Some (Utils.normalizeBasePath base)) pathname
    = Utils.createBasePathGuard base pathname
  ∧ Index.rewriteRequestForBase (Some (Utils.normalizeBasePath base)) request
    = Index.rewriteRequestForBase base request
  ∧ Utils.normalizeBasePath (Plugin.config_base base) = Utils.normalizeBasePath base.
Proof.
  split; [apply normalizeBasePath_idemp|]. split; [|split].
  - unfold Utils.createBasePathGuard. by rewrite normalizeBasePath_idemp.
  - unfold Index.rewriteRequestForBase, Utils.createBasePathRewriter.
    by rewrite normalizeBasePath_idemp.
  - destruct base as [b|]; [|done]. cbn [Plugin.config_base].
    by destruct (String.eqb_spec b "") as [->|_].
Qed.

Lemma string_length_app (a b : string) :
  String.length (a +:+ b) = String.length a + String.length b.
Proof.
  induction a as [|c a IH]; [done|].
  rewrite string_app_cons. cbn [String.length]. by rewrite IH.
Qed.

Lemma string_app_longer (a b : string) : a ≠ "" → a +:+ b ≠ b.
Proof.
  intros Ha E. apply (f_equal String.length) in E.
  rewrite string_length_app in E. destruct a; [done|]. cbn in E. lia.
Qed.

(** X2.  Guard and rewriter agree.  Without a base, and for a pathname the
    guard rejects, the rewriter returns the request as it is.  For a
    pathname the guard accepts, the rewriter does change the request: the
    new pathname starts with a slash, and it is ["/"] for the bare base and
    otherwise what follows the base, so that the base followed by the new
    pathname is the old pathname. *)
Theorem guard_rewriter_agree (base : option string) (request : Fetch.Request) :
  let B := Utils.normalizeBasePath base in
  let p := url_pathname (Fetch.request_url request) in
  let request' := Index.rewriteRequestForBase base request in
  let p' := url_pathname (Fetch.request_url request') in
  if String.eqb B "" then request' = request
  else if Utils.createBasePathGuard base (Some p)
  then Js.startsWith p' "/" = true
       ∧ request' ≠ request
       ∧ (if String.eqb p B then p' = "/" else p = B +:+ p')
  else request' = request.
Proof.
  cbv zeta.
  unfold Index.rewriteRequestForBase, Utils.createBasePathRewriter,
    Utils.createBasePathGuard.
  destruct (String.eqb_spec (Utils.normalizeBasePath base) "") as [EB|HB]; [done|].
  set (B := Utils.normalizeBasePath base) in *.
  set (p := url_pathname (Fetch.request_url request)).
  destruct (String.eqb_spec p B) as [Ep|Hp].
  - assert (Hne : negb (String.eqb p "") = true).
    { apply negb_true_iff, String.eqb_neq. by rewrite Ep. }
    rewrite Hne. cbn [andb orb]. split; [done|]. split; [|done].
    intros E. apply (f_equal (fun r => url_pathname (Fetch.request_url r))) in E.
    cbn in E. fold p in E. rewrite Ep in E.
    by apply (normalizeBasePath_not_slash base).
  - cbn [orb].
    destruct (Js.startsWith p (B +:+ "/")) eqn:Es.
    + destruct (slice_under_base _ _ Es) as (t & Hpt & Ht & Hslice).
      assert (Hne : negb (String.eqb p "") = true).
      { apply negb_true_iff, String.eqb_neq. rewrite Hpt.
        by apply string_app_not_nil. }
      rewrite Hne. cbn [andb]. cbn. fold p. rewrite Hslice.
      assert (Htne : t ≠ "") by (intros ->; done).
      unfold Js.or_else. apply String.eqb_neq in Htne. rewrite Htne.
      split; [done|]. split; [|done].
      intros E. apply (f_equal (fun r => url_pathname (Fetch.request_url r))) in E.
      cbn in E. fold p in E. rewrite Hpt in E. symmetry in E.
      by apply string_app_longer in E.
    + by rewrite andb_false_r.
Qed.

(** ** The middleware, path by path *)

Lemma createBasePathRewriter_frame base request :
  Fetch.request_method (Index.rewriteRequestForBase base request)
  = Fetch.request_method request
  ∧ Fetch.request_headers (Index.rewriteRequestForBase base request)
    = Fetch.request_headers request
  ∧ Fetch.request_body (Index.rewriteRequestForBase base request)
    = Fetch.request_body request.
Proof.
  unfold Index.rewriteRequestForBase, Utils.createBasePathRewriter.
  destruct (String.eqb (Utils.normalizeBasePath base) ""); [done|].
  destruct (String.eqb _ _); [done|]. by destruct (Js.startsWith _ _).
Qed.

(** The URL of the request the rewriter returns, read off the pathname of
    the request it was given *)
Lemma rewriteRequestForBase_url base request :
  let B := Utils.normalizeBasePath base in
  let u := Fetch.request_url request in
  let u' := Fetch.request_url (Index.rewriteRequestForBase base request) in
  url_origin u' = url_origin u
  ∧ url_search u' = url_search u
  ∧ url_hash u' = url_hash u
  ∧ url_pathname u'
    = if String.eqb B ""
         || negb (Utils.createBasePathGuard base (Some (url_pathname u)))
      then url_pathname u
      else if String.eqb (url_pathname u) B then "/"
      else Js.slice (url_pathname u) (String.length B).
Proof.
  cbv zeta.
  unfold Index.rewriteRequestForBase, Utils.createBasePathRewriter,
    Utils.createBasePathGuard.
  destruct (String.eqb_spec (Utils.normalizeBasePath base) "") as [EB|HB]; [done|].
  set (B := Utils.normalizeBasePath base) in *.
  set (p := url_pathname (Fetch.request_url request)).
  cbn [orb].
  destruct (String.eqb_spec p B) as [Ep|Hp].
  - assert (Hne : negb (String.eqb p "") = true).
    { apply negb_true_iff, String.eqb_neq. by rewrite Ep. }
    by rewrite Hne.
  - cbn [orb]. destruct (Js.startsWith p (B +:+ "/")) eqn:Es.
    + destruct (slice_under_base _ _ Es) as (t & Hpt & Ht & Hslice).
      assert (Hne : negb (String.eqb p "") = true).
      { apply negb_true_iff, String.eqb_neq. rewrite Hpt.
        by apply string_app_not_nil. }
      rewrite Hne. cbn [andb negb]. cbn. fold p. rewrite Hslice.
      assert (Htne : t ≠ "") by (intros ->; done).
      unfold Js.or_else. apply String.eqb_neq in Htne. by rewrite Htne.
    + by rewrite andb_false_r.
Qed.

Section Pipeline.
Context {pf : Platform}.

Lemma is_public_file_total st url : ∃ b, Index.is_public_file st url = Return b.
Proof.
  unfold Index.is_public_file.
  destruct (String.eqb (Index.publicDirPath st) ""); [by eexists|].
  rewrite safeParseUrlPath_total. cbn [mbind Exc_bind].
  destruct (url_pathname <$> URL_parse url (Some "http://localhost")) as [p|];
    [|by eexists].
  destruct (String.eqb p ""); by eexists.
Qed.

Lemma some_matchPattern_length ps target :
  length (snd (Index.some_matchPattern ps target)) = length ps.
Proof.
  induction ps as [|p ps IH]; [done|]. cbn [Index.some_matchPattern].
  destruct (Index.matchPattern p target) as [[] p'].
  - done.
  - destruct (Index.some_matchPattern ps target) as [b' ps']. cbn in *.
    by rewrite IH.
Qed.

(** The worker-bound path of the middleware, from [createWorkerRequest] on *)
Lemma middleware_worker_bound o st req res url emulator ps' :
  Index.mf st = Some emulator →
  Node.im_url req = Some url →
  url ≠ "" →
  Index.is_public_file st url = Return false →
  Index.some_matchPattern (Index.excludePatterns st) url = (false, ps') →
  Utils.createBasePathGuard (Index.opt_base o)
    (url_pathname <$> URL_parse url (Some "http://localhost")) = true →
  Index.middleware o st req res
  = match Index.createWorkerRequest req with
    | Throw e => Index.mkOutcome (Index.NextError e) None ps'
    | Return request =>
        let sent := Index.rewriteRequestForBase (Index.opt_base o) request in
        match Index.dispatchFetch emulator sent with
        | Throw e => Index.mkOutcome (Index.NextError e) (Some sent) ps'
        | Return response =>
            match Index.injectClientScript o st response with
            | Throw e => Index.mkOutcome (Index.NextError e) (Some sent) ps'
            | Return response' =>
                Index.mkOutcome (Index.Sent (Index.sendResponse res response'))
                  (Some sent) ps'
            end
        end
    end.
Proof.
  intros Hmf Hurl Hne Hfile Hex Hguard.
  unfold Index.middleware. rewrite Hurl, Hmf.
  apply String.eqb_neq in Hne. rewrite Hne, Hfile.
  cbn [Index.or_next_error]. rewrite Hex.
  rewrite safeParseUrlPath_total. cbn [Index.or_next_error].
  rewrite Hguard. cbn [negb].
  destruct (Index.createWorkerRequest req) as [request|e]; [|done].
  cbn [Index.or_next_error].
  destruct (Index.dispatchFetch emulator _) as [response|e]; [|done].
  cbn [Index.or_next_error].
  by destruct (Index.injectClientScript o st response).
Qed.

(** X3.  The middleware hands a request to the host dev server, without
    error and without giving anything to the worker, when the URL names a
    file of the public directory, when an exclude pattern matches the raw
    request URL, or when the guard rejects the parsed pathname. *)
Theorem middleware_passes_through (o : Index.Options) (st : Index.PluginState)
    (req : Node.IncomingMessage) (res : Node.ServerResponse) (url : string) :
  Node.im_url req = Some url →
  Index.is_public_file st url = Return true
  ∨ fst (Index.some_matchPattern (Index.excludePatterns st) url) = true
  ∨ Utils.createBasePathGuard (Index.opt_base o)
      (url_pathname <$> URL_parse url (Some "http://localhost")) = false →
  Index.completion (Index.middleware o st req res) = Index.Next
  ∧ Index.dispatched (Index.middleware o st req res) = None.
Proof.
  intros Hurl Hcase. unfold Index.middleware. rewrite Hurl.
  destruct (Index.mf st) as [emulator|]; [|done].
  destruct (String.eqb url ""); [done|].
  destruct (is_public_file_total st url) as [[] Hfile]; rewrite Hfile;
    cbn [Index.or_next_error]; [done|].
  destruct (Index.some_matchPattern (Index.excludePatterns st) url) as [[] ps'];
    [done|].
  rewrite safeParseUrlPath_total. cbn [Index.or_next_error].
  destruct Hcase as [Hc|[Hc|Hc]]; [congruence | done |].
  by rewrite Hc.
Qed.

(** X4.  A request that is neither a public file nor excluded, that the
    guard accepts, and of which the platform makes a [Request], reaches the
    worker: the worker receives the method of the incoming request (the
    standard methods in upper case), all of its body for a method other
    than GET and HEAD, and its headers, each value without the whitespace
    around it.  The URL it receives is the parse of ["http://"], the host
    header or ["localhost"], and the raw request path, with the base taken
    off its pathname when that pathname, which is not always the one the
    guard saw, is the base or lies under it, and as it is otherwise. *)
Theorem middleware_forwards (o : Index.Options) (st : Index.PluginState)
    (req : Node.IncomingMessage) (res : Node.ServerResponse)
    (url : string) (emulator : Index.Miniflare) :
  Index.mf st = Some emulator →
  Node.im_url req = Some url →
  url ≠ "" →
  Index.is_public_file st url = Return false →
  fst (Index.some_matchPattern (Index.excludePatterns st) url) = false →
  Utils.createBasePathGuard (Index.opt_base o)
    (url_pathname <$> URL_parse url (Some "http://localhost")) = true →
  Spec.constructible req = true →
  let method := Js.nullish (Node.im_method req) "GET" in
  let B := Utils.normalizeBasePath (Index.opt_base o) in
  ∃ u sent,
    URL_parse (Spec.absolute_url req) None = Some u
    ∧ Index.dispatched (Index.middleware o st req res) = Some sent
    ∧ Fetch.request_method sent = Fetch.normalize_method method
    ∧ Fetch.request_body sent
      = (if Fetch.one_of ["GET"; "HEAD"] method then None
         else Some (concat (Node.im_chunks req)))
    ∧ (∀ name, Fetch.Headers_get name (Fetch.request_headers sent)
               = Fetch.normalize_value
                 <$> Spec.copied_header (Node.im_headers req) name)
    ∧ url_origin (Fetch.request_url sent) = url_origin u
    ∧ url_search (Fetch.request_url sent) = url_search u
    ∧ url_hash (Fetch.request_url sent) = url_hash u
    ∧ url_pathname (Fetch.request_url sent)
      = if String.eqb B ""
           || negb (Utils.createBasePathGuard (Index.opt_base o)
                      (Some (url_pathname u)))
        then url_pathname u
        else if String.eqb (url_pathname u) B then "/"
        else Js.slice (url_pathname u) (String.length B).
Proof.
  intros Hmf Hurl Hne Hfile Hex Hguard Hok. cbv zeta.
  destruct (Index.some_matchPattern (Index.excludePatterns st) url)
    as [b ps'] eqn:Hps. cbn [fst] in Hex. subst b.
  rewrite (middleware_worker_bound o st req res url emulator ps') by done.
  destruct (createWorkerRequest_returns req Hok)
    as (request & Hreq & Hu & Hm & Hh & Hb).
  rewrite Hreq. cbv zeta.
  destruct (createBasePathRewriter_frame (Index.opt_base o) request)
    as (Hfm & Hfh & Hfb).
  destruct (rewriteRequestForBase_url (Index.opt_base o) request)
    as (Hor & Hse & Hha & Hpa).
  exists (Fetch.request_url request),
    (Index.rewriteRequestForBase (Index.opt_base o) request).
  split; [exact Hu|]. split.
  { destruct (Index.dispatchFetch emulator _) as [response|e]; [|done].
    by destruct (Index.injectClientScript o st response). }
  rewrite Hfm, Hfb, Hfh.
  split; [exact Hm|]. split; [exact Hb|]. split; [exact Hh|].
  split; [exact Hor|]. split; [exact Hse|]. split; [exact Hha | exact Hpa].
Qed.

(** X5.  On the worker-bound path every exception reaches [next(error)] as
    it was thrown, and a response is written only when nothing threw: an
    exception of [createWorkerRequest] comes before any dispatch; one of
    [dispatchFetch] or of the injection comes after it. *)
Theorem middleware_forwards_errors (o : Index.Options) (st : Index.PluginState)
    (req : Node.IncomingMessage) (res : Node.ServerResponse)
    (url : string) (emulator : Index.Miniflare) :
  Index.mf st = Some emulator →
  Node.im_url req = Some url →
  url ≠ "" →
  Index.is_public_file st url = Return false →
  fst (Index.some_matchPattern (Index.excludePatterns st) url) = false →
  Utils.createBasePathGuard (Index.opt_base o)
    (url_pathname <$> URL_parse url (Some "http://localhost")) = true →
  let out := Index.middleware o st req res in
  match Index.createWorkerRequest req with
  | Throw e => Index.completion out = Index.NextError e ∧ Index.dispatched out = None
  | Return request =>
      let sent := Index.rewriteRequestForBase (Index.opt_base o) request in
      Index.dispatched out = Some sent
      ∧ match Index.dispatchFetch emulator sent with
        | Throw e => Index.completion out = Index.NextError e
        | Return response =>
            match Index.injectClientScript o st response with
            | Throw e => Index.completion out = Index.NextError e
            | Return response' =>
                Index.completion out = Index.Sent (Index.sendResponse res response')
            end
        end
  end.
Proof.
  intros Hmf Hurl Hne Hfile Hex Hguard. cbv zeta.
  destruct (Index.some_matchPattern (Index.excludePatterns st) url)
    as [b ps'] eqn:Hps. cbn [fst] in Hex. subst b.
  rewrite (middleware_worker_bound o st req res url emulator ps') by done.
  destruct (Index.createWorkerRequest req) as [request|e]; [|done].
  cbv zeta.
  destruct (Index.dispatchFetch emulator _) as [response|e]; [|done].
  by destruct (Index.injectClientScript o st response).
Qed.

(** X6.  Whatever the request: [next()] without an error means that nothing
    was given to the worker, a written response means that the worker was
    called, and a run changes no more of the exclude patterns than their
    [lastIndex] (the list keeps its length). *)
Theorem middleware_outcome_consistent (o : Index.Options) (st : Index.PluginState)
    (req : Node.IncomingMessage) (res : Node.ServerResponse) :
  let out := Index.middleware o st req res in
  match Index.completion out with
  | Index.Next => Index.dispatched out = None
  | Index.Sent _ => is_Some (Index.dispatched out)
  | Index.NextError _ => True
  end
  ∧ length (Index.patterns_after out) = length (Index.excludePatterns st).
Proof.
  cbv zeta. unfold Index.middleware.
  destruct (Node.im_url req) as [url|]; [|done].
  destruct (Index.mf st) as [emulator|]; [|done].
  destruct (String.eqb url ""); [done|].
  destruct (is_public_file_total st url) as [[] Hfile]; rewrite Hfile;
    cbn [Index.or_next_error]; [done|].
  pose proof (some_matchPattern_length (Index.excludePatterns st) url) as Hlen.
  destruct (Index.some_matchPattern (Index.excludePatterns st) url) as [[] ps'];
    cbn [snd] in Hlen; [done|].
  rewrite safeParseUrlPath_total. cbn [Index.or_next_error].
  destruct (negb _); [done|].
  destruct (Index.createWorkerRequest req) as [request|e]; [|done].
  cbn [Index.or_next_error].
  destruct (Index.dispatchFetch emulator _) as [response|e]; [|done].
  cbn [Index.or_next_error].
  destruct (Index.injectClientScript o st response); cbn; [|done].
  split; [by eexists | done].
Qed.

End Pipeline.

(** X3 at a request for a file of the public directory *)
Lemma middleware_passes_through_witness :
  Index.completion
    (Index.middleware (pf := Sample.platform true) Example.at_app
       (Example.mounted Sample.worker) (Sample.get "/robots.txt")
       Sample.fresh_response) = Index.Next
  ∧ Index.dispatched
      (Index.middleware (pf := Sample.platform true) Example.at_app
         (Example.mounted Sample.worker) (Sample.get "/robots.txt")
         Sample.fresh_response) = None.
Proof.
  apply (middleware_passes_through (pf := Sample.platform true) Example.at_app
           (Example.mounted Sample.worker) (Sample.get "/robots.txt")
           Sample.fresh_response "/robots.txt" eq_refl).
  left. reflexivity.
Defined.

(** X4 under the base [/app]: a POST request to [/app/items], and a GET
    request whose target [//localhost:5173/app/x] the guard reads as
    [/app/x] while the URL of the worker request has the whole target as
    its pathname, which is not under the base *)
Lemma middleware_forwards_witness :
  (∃ sent,
     Index.dispatched
       (Index.middleware (pf := Sample.platform true) Example.at_app
          (Example.mounted Sample.worker) Sample.post Sample.fresh_response)
     = Some sent
     ∧ url_pathname (Fetch.request_url sent) = "/items"
     ∧ Fetch.request_method sent = "POST"
     ∧ Fetch.request_body sent = Some [Byte.x7b; Byte.x7d])
  ∧ (∃ sent,
       Index.dispatched
         (Index.middleware (pf := Sample.platform true) Example.at_app
            (Example.mounted Sample.worker) Example.double_slash
            Sample.fresh_response)
       = Some sent
       ∧ url_pathname (Fetch.request_url sent) = "//localhost:5173/app/x").
Proof.
  split.
  - destruct (middleware_forwards (pf := Sample.platform true) Example.at_app
                (Example.mounted Sample.worker) Sample.post Sample.fresh_response
                "/app/items?x=1" Sample.worker
                eq_refl eq_refl ltac:(discriminate) eq_refl eq_refl eq_refl eq_refl)
      as (u & sent & Hu & Hd & Hm & Hb & _ & _ & _ & _ & Hp).
    injection Hu as <-.
    exists sent. split; [exact Hd|]. split; [exact Hp|]. by split.
  - destruct (middleware_forwards (pf := Sample.platform true) Example.at_app
                (Example.mounted Sample.worker) Example.double_slash
                Sample.fresh_response "//localhost:5173/app/x" Sample.worker
                eq_refl eq_refl ltac:(discriminate) eq_refl eq_refl eq_refl eq_refl)
      as (u & sent & Hu & Hd & _ & _ & _ & _ & _ & _ & Hp).
    injection Hu as <-.
    exists sent. split; [exact Hd | exact Hp].
Defined.

(** X5 at a worker whose dispatch throws *)
Lemma middleware_forwards_errors_witness :
  Index.completion
    (Index.middleware (pf := Sample.platform true) Example.at_app
       (Example.mounted Example.failing_worker) Sample.post Sample.fresh_response)
  = Index.NextError (OtherError "worker failed").
Proof.
  pose proof (middleware_forwards_errors (pf := Sample.platform true) Example.at_app
                (Example.mounted Example.failing_worker) Sample.post
                Sample.fresh_response "/app/items?x=1" Example.failing_worker
                eq_refl eq_refl ltac:(discriminate) eq_refl eq_refl eq_refl)
    as H.
  cbv zeta in H. exact (proj2 H).
Defined.

(** ** The rebuild cycle, counted *)

Section Counting.
Import Rebuild Accounting.

Lemma run_snoc evs e s : run (evs ++ [e]) s = step e (run evs s).
Proof. unfold run. by rewrite foldl_app. Qed.

Lemma run_app evs evs' s : run (evs ++ evs') s = run evs' (run evs s).
Proof. unfold run. by rewrite foldl_app. Qed.

Lemma calls_snoc evs e :
  calls (evs ++ [e]) = calls evs + (if is_call e then 1 else 0).
Proof.
  unfold calls. rewrite List.filter_app, length_app. cbn [List.filter].
  by destruct (is_call e).
Qed.

Lemma Counted_step evs e s : Counted evs s → Counted (evs ++ [e]) (step e s).
Proof.
  intros (HI & Hc & Hr & He & Ha).
  split; [by apply Inv_step|].
  rewrite calls_snoc.
  assert (Hfin : ∀ t, suspended t = [] →
            builds t + pending t ≤ calls evs →
            reloads t ≤ builds t →
            emulator t = (0 <? reloads t) →
            builds (finally_block t) + pending (finally_block t) ≤ calls evs + 0
            ∧ reloads (finally_block t) + busy (finally_block t)
              ≤ builds (finally_block t)
            ∧ emulator (finally_block t) = (0 <? reloads (finally_block t))
            ∧ (In AwaitSetOptions (suspended (finally_block t))
               → emulator (finally_block t) = true)).
  { intros t Hs Hc' Hr' He'. unfold finally_block, pending, busy in *.
    cbn. rewrite Hs. destruct (buildQueued t); cbn.
    - split; [lia|]. split; [lia|]. split; [done|]. by intros [?|[]].
    - split; [lia|]. split; [lia|]. by split. }
  destruct e as [|i r c].
  - cbn [step is_call]. unfold rebuildWorker, pending, busy in *.
    destruct HI as [[Hp [a Hs]]|(Hp & Hq & Hs)]; rewrite Hp in *; cbn.
    + split; [destruct (buildQueued s); lia|]. split; [lia|]. by split.
    + rewrite Hq, Hs in *. cbn in *. split; [lia|]. split; [lia|].
      split; [done|]. by intros [?|[]].
  - cbn [step is_call].
    destruct (suspended s !! i) as [a|] eqn:Hi;
      [|rewrite Nat.add_0_r; by split].
    destruct HI as [[Hp [a' Hs]]|(Hp & Hq & Hs)]; [|by rewrite Hs in Hi].
    rewrite Hs in Hi, Ha |- *. destruct i as [|i]; [|done].
    cbn in Hi. injection Hi as ->. cbn [delete list_delete].
    assert (Hr1 : reloads s + 1 ≤ builds s).
    { unfold busy in Hr. by rewrite Hp in Hr. }
    destruct a, r; cbn [resume emulator].
    + destruct (emulator s) eqn:Hem.
      * rewrite Nat.add_0_r. unfold pending, busy in *. cbn. rewrite Hp.
        split; [done|]. split; [lia|]. by split.
      * destruct c.
        -- apply Hfin; cbn; [done | by unfold pending in * | lia | done].
        -- apply Hfin; cbn; [done | by unfold pending in * | lia | done].
    + apply Hfin; cbn; [done | by unfold pending in * | lia | done].
    + assert (Hem : emulator s = true) by (apply Ha; by left).
      apply Hfin; cbn; [done | by unfold pending in * | lia | done].
    + apply Hfin; cbn; [done | by unfold pending in * | lia | done].
Qed.

Lemma Counted_run evs : Counted evs (run evs init).
Proof.
  induction evs as [|e evs IH] using rev_ind.
  - split; [apply Inv_init|]. cbn. split; [lia|]. split; [lia|]. by split.
  - rewrite run_snoc. by apply Counted_step.
Qed.

Lemma step_monotone e s :
  builds s ≤ builds (step e s)
  ∧ reloads s ≤ reloads (step e s)
  ∧ builds s + pending s ≤ builds (step e s) + pending (step e s).
Proof.
  unfold pending. destruct e as [|i r c]; cbn [step].
  - unfold rebuildWorker. destruct (buildInProgress s); cbn;
      destruct (buildQueued s); lia.
  - destruct (suspended s !! i) as [a|]; [|lia].
    destruct a, r; cbn [resume emulator]; unfold finally_block; cbn.
    + destruct (emulator s); [cbn; lia|].
      destruct c; cbn; destruct (buildQueued s); cbn; lia.
    + destruct (buildQueued s); cbn; lia.
    + destruct (buildQueued s); cbn; lia.
    + destruct (buildQueued s); cbn; lia.
Qed.

Lemma run_monotone evs : ∀ s,
  builds s ≤ builds (run evs s)
  ∧ reloads s ≤ reloads (run evs s)
  ∧ builds s + pending s ≤ builds (run evs s) + pending (run evs s).
Proof.
  induction evs as [|e evs IH]; intros s; [done|].
  change (run (e :: evs) s) with (run evs (step e s)).
  destruct (step_monotone e s) as (H1 & H2 & H3).
  destruct (IH (step e s)) as (H4 & H5 & H6). lia.
Qed.

End Counting.

(** X7.  In every state the loop can reach: no more builds have been
    started, or are queued, than [rebuildWorker] was called; a full reload
    was sent for no more builds than have finished; the emulator exists
    exactly when a reload has been sent, that is after the first build that
    succeeded; and builds, reloads and the emulator are never taken back by
    later events. *)
Theorem rebuild_accounting (evs evs' : list Rebuild.Event) :
  let s := Rebuild.run evs Rebuild.init in
  let s' := Rebuild.run (evs ++ evs') Rebuild.init in
  Rebuild.builds s + Accounting.pending s ≤ Accounting.calls evs
  ∧ Rebuild.reloads s + Accounting.busy s ≤ Rebuild.builds s
  ∧ Rebuild.emulator s = (0 <? Rebuild.reloads s)
  ∧ Rebuild.builds s ≤ Rebuild.builds s'
  ∧ Rebuild.reloads s ≤ Rebuild.reloads s'
  ∧ (Rebuild.emulator s = true → Rebuild.emulator s' = true).
Proof.
  cbv zeta.
  destruct (Counted_run evs) as (_ & Hc & Hr & He & _).
  destruct (Counted_run (evs ++ evs')) as (_ & _ & _ & He' & _).
  rewrite run_app in *.
  destruct (run_monotone evs' (Rebuild.run evs Rebuild.init)) as (Hb & Hl & _).
  repeat split; try done.
  rewrite He, He'. intros H%Nat.ltb_lt. apply Nat.ltb_lt. lia.
Qed.

(** X8.  No call of [rebuildWorker] is lost.  After a call, a build has been
    started since the call or a follow-up is queued; and in any later state
    in which nothing is in progress, a build has been started since the
    call. *)
Theorem rebuild_request_not_lost (evs1 evs2 : list Rebuild.Event) :
  let s0 := Rebuild.run evs1 Rebuild.init in
  let s2 := Rebuild.run (evs1 ++ Rebuild.Call :: evs2) Rebuild.init in
  Rebuild.builds s0 + 1 ≤ Rebuild.builds s2 + Accounting.pending s2
  ∧ (Rebuild.buildInProgress s2 = false → Rebuild.builds s0 < Rebuild.builds s2).
Proof.
  cbv zeta.
  pose proof (Inv_run (evs1 ++ Rebuild.Call :: evs2) _ Inv_init) as HI.
  rewrite run_app in *.
  set (s0 := Rebuild.run evs1 Rebuild.init) in *.
  change (Rebuild.run (Rebuild.Call :: evs2) s0)
    with (Rebuild.run evs2 (Rebuild.step Rebuild.Call s0)) in *.
  destruct (run_monotone evs2 (Rebuild.step Rebuild.Call s0)) as (_ & _ & Hp).
  assert (Hcall : Rebuild.builds s0 + 1
                  ≤ Rebuild.builds (Rebuild.step Rebuild.Call s0)
                    + Accounting.pending (Rebuild.step Rebuild.Call s0)).
  { cbn [Rebuild.step]. unfold Rebuild.rebuildWorker, Accounting.pending.
    destruct (Rebuild.buildInProgress s0); cbn; [lia|].
    destruct (Rebuild.buildQueued s0); lia. }
  split; [lia|]. intros Hidle.
  destruct HI as [[Hbusy _]|(_ & Hq & _)]; [congruence|].
  unfold Accounting.pending in Hp at 2. rewrite Hq in Hp. lia.
Qed.

(** X7 and X8 on a run: a call, two calls during the build, the build
    succeeding, and the follow-up failing *)
Lemma rebuild_accounting_witness :
  Rebuild.emulator
    (Rebuild.run
       ([Rebuild.Call; Rebuild.Call; Rebuild.Call;
         Rebuild.Settle 0 Rebuild.Resolved true]
        ++ [Rebuild.Settle 0 Rebuild.Rejected true]) Rebuild.init) = true.
Proof.
  apply (rebuild_accounting
           [Rebuild.Call; Rebuild.Call; Rebuild.Call;
            Rebuild.Settle 0 Rebuild.Resolved true]
           [Rebuild.Settle 0 Rebuild.Rejected true]).
  reflexivity.
Defined.

Lemma rebuild_request_not_lost_witness :
  Rebuild.builds (Rebuild.run [Rebuild.Call] Rebuild.init)
  < Rebuild.builds
      (Rebuild.run
         ([Rebuild.Call] ++ Rebuild.Call
          :: [Rebuild.Settle 0 Rebuild.Rejected true;
              Rebuild.Settle 0 Rebuild.Resolved true]) Rebuild.init).
Proof.
  apply (rebuild_request_not_lost [Rebuild.Call]
           [Rebuild.Settle 0 Rebuild.Rejected true;
            Rebuild.Settle 0 Rebuild.Resolved true]).
  reflexivity.
Defined.

(** ** The debounce timer and the watcher *)

Section Debounce.
Context {pf : Platform}.
Import Watch.

Lemma timer_delay_pos ms : (1 ≤ timer_delay ms)%N.
Proof.
  unfold timer_delay.
  destruct ((1 <=? ms)%N) eqn:H1; cbn [andb]; [|lia].
  apply N.leb_le in H1. destruct ((ms <=? 2147483647)%N); lia.
Qed.

Lemma scheduleRebuild_one_timer rd s :
  one_timer s →
  timeouts (scheduleRebuild rd s)
  = [(next_handle s, (now s + timer_delay (Js.nullish rd 80%N))%N)]
  ∧ rebuildTimer (scheduleRebuild rd s) = Some (next_handle s)
  ∧ now (scheduleRebuild rd s) = now s
  ∧ rebuild (scheduleRebuild rd s) = rebuild s
  ∧ ignoreWatching (scheduleRebuild rd s) = ignoreWatching s.
Proof.
  intros Hone. unfold scheduleRebuild. cbn.
  repeat split.
  destruct Hone as [->|(h & due & -> & -> & _)].
  - by destruct (rebuildTimer s).
  - cbn. by rewrite Nat.eqb_refl.
Qed.

Lemma one_timer_schedule rd s : one_timer s → one_timer (scheduleRebuild rd s).
Proof.
  intros Hone.
  destruct (scheduleRebuild_one_timer rd s Hone) as (Ht & Hr & Hn & _).
  right. eexists _, _. split; [exact Ht|]. split; [exact Hr|].
  rewrite Hn. pose proof (timer_delay_pos (Js.nullish rd 80%N)). lia.
Qed.

Lemma advance_waits ms s h due :
  timeouts s = [(h, due)] → (now s + ms < due)%N →
  advance ms s
  = mkState (now s + ms) (rebuildTimer s) [(h, due)] (next_handle s)
      (ignoreWatching s) (rebuild s).
Proof.
  intros Ht Hlt. unfold advance. rewrite Ht. cbn.
  by rewrite (proj2 (N.leb_gt _ _) Hlt).
Qed.

Lemma advance_fires ms s h due :
  timeouts s = [(h, due)] → (due ≤ now s + ms)%N →
  advance ms s
  = mkState (now s + ms) (rebuildTimer s) [] (next_handle s)
      (ignoreWatching s) (Rebuild.rebuildWorker (rebuild s)).
Proof.
  intros Ht Hle. unfold advance. rewrite Ht. cbn.
  by rewrite (proj2 (N.leb_le _ _) Hle).
Qed.

Lemma advance_idle ms s :
  timeouts s = [] →
  advance ms s
  = mkState (now s + ms) (rebuildTimer s) [] (next_handle s)
      (ignoreWatching s) (rebuild s).
Proof. intros Ht. unfold advance. by rewrite Ht. Qed.

Lemma one_timer_advance ms s : one_timer s → one_timer (advance ms s).
Proof.
  intros [Ht|(h & due & Ht & Hr & Hlt)].
  - rewrite (advance_idle _ _ Ht). by left.
  - destruct (decide (now s + ms < due)%N) as [Hw|Hf].
    + rewrite (advance_waits _ _ _ _ Ht Hw). right. by exists h, due.
    + rewrite (advance_fires _ _ h due Ht) by lia. by left.
Qed.

Lemma one_timer_step rd outDir e s : one_timer s → one_timer (step rd outDir e s).
Proof.
  intros Hone. destruct e as [file|ms|e']; cbn [step].
  - unfold on_all.
    destruct (Index.shouldIgnorePath file (ignoreWatching s)) as [ignored ps].
    destruct (ignored || _).
    + exact Hone.
    + apply one_timer_schedule. exact Hone.
  - by apply one_timer_advance.
  - exact Hone.
Qed.

Lemma one_timer_run rd outDir evs : ∀ s,
  one_timer s → one_timer (run rd outDir evs s).
Proof.
  induction evs as [|e evs IH]; intros s Hone; [done|].
  cbn [run foldl]. apply IH. by apply one_timer_step.
Qed.

Lemma on_all_watched rd outDir file s :
  forallb Spec.stateless (ignoreWatching s) = true →
  watched outDir (ignoreWatching s) file = true →
  on_all rd outDir file s = scheduleRebuild rd s.
Proof.
  intros Hst [Hi Ho]%andb_prop. unfold on_all.
  destruct (some_matchPattern_stateless (ignoreWatching s) (normalizePath file) Hst)
    as [Hsnd _].
  unfold Index.shouldIgnorePath in *.
  destruct (Index.some_matchPattern (ignoreWatching s) (normalizePath file))
    as [ignored ps]. cbn [fst snd] in *. subst ps.
  apply negb_true_iff in Hi, Ho. rewrite Hi, Ho. cbn [orb].
  by destruct s.
Qed.

Lemma burst_fires_once rd outDir more : ∀ file quiet s,
  one_timer s →
  forallb Spec.stateless (ignoreWatching s) = true →
  watched outDir (ignoreWatching s) file = true →
  Forall (fun gf => (fst gf < timer_delay (Js.nullish rd 80%N))%N
                    ∧ watched outDir (ignoreWatching s) (snd gf) = true) more →
  (timer_delay (Js.nullish rd 80%N) ≤ quiet)%N →
  rebuild (run rd outDir (burst file more quiet) s)
  = Rebuild.rebuildWorker (rebuild s)
  ∧ timeouts (run rd outDir (burst file more quiet) s) = [].
Proof.
  induction more as [|[gap file'] more IH]; intros file quiet s Hone Hst Hw Hall Hq.
  - cbn [burst run foldl step].
    rewrite (on_all_watched _ _ _ _ Hst Hw).
    destruct (scheduleRebuild_one_timer rd s Hone) as (Ht & _ & Hn & Hr & _).
    rewrite (advance_fires _ _ _ _ Ht) by (rewrite Hn; lia).
    done.
  - apply Forall_cons in Hall as [[Hgap Hw'] Hall]. cbn [fst snd] in *.
    cbn [burst run foldl step].
    rewrite (on_all_watched _ _ _ _ Hst Hw).
    destruct (scheduleRebuild_one_timer rd s Hone) as (Ht & Htimer & Hn & Hr & Hi).
    rewrite (advance_waits _ _ _ _ Ht) by (rewrite Hn; lia).
    rewrite Hn, Htimer, Hr, Hi.
    set (s1 := mkState _ _ _ _ _ _).
    destruct (IH file' quiet s1) as [IHr IHt]; try done.
    right. eexists _, _. split; [done|]. split; [done|]. cbn. lia.
Qed.

Lemma stateless_kept rd outDir evs : ∀ s,
  forallb Spec.stateless (ignoreWatching s) = true →
  ignoreWatching (run rd outDir evs s) = ignoreWatching s.
Proof.
  induction evs as [|e evs IH]; intros s Hst; [done|].
  cbn [run foldl].
  assert (Hstep : ignoreWatching (step rd outDir e s) = ignoreWatching s).
  { destruct e as [file|ms|e']; cbn [step]; [|done..].
    unfold on_all.
    destruct (some_matchPattern_stateless (ignoreWatching s) (normalizePath file) Hst)
      as [Hsnd _].
    unfold Index.shouldIgnorePath.
    destruct (Index.some_matchPattern (ignoreWatching s) (normalizePath file))
      as [ignored ps]. cbn [snd] in Hsnd. subst ps.
    by destruct (ignored || _). }
  fold (run rd outDir evs (step rd outDir e s)).
  rewrite IH; rewrite Hstep; done.
Qed.

(** X9.  Debouncing.  In every state the plugin can reach at most one
    timeout is live.  When watched files change one after another, each
    less than the debounce delay after the one before, and then nothing
    changes for at least the delay, [rebuildWorker] is called exactly once,
    and no timeout is left.  (The ignore patterns are ones without the
    global and sticky flags.) *)
Theorem debounce_coalesces (reloadDebounceMs : option N) (absoluteOutDir : string)
    (patterns : list Index.Pattern) (evs : list Watch.Event)
    (file : string) (more : list (N * string)) (quiet : N) :
  let delay := timer_delay (Js.nullish reloadDebounceMs 80%N) in
  let s := run reloadDebounceMs absoluteOutDir evs (init patterns) in
  let s' := run reloadDebounceMs absoluteOutDir (burst file more quiet) s in
  forallb Spec.stateless patterns = true →
  watched absoluteOutDir patterns file = true →
  Forall (fun gf => (fst gf < delay)%N
                    ∧ watched absoluteOutDir patterns (snd gf) = true) more →
  (delay ≤ quiet)%N →
  length (timeouts s) ≤ 1
  ∧ rebuild s' = Rebuild.rebuildWorker (rebuild s)
  ∧ timeouts s' = [].
Proof.
  cbv zeta. intros Hst Hw Hall Hq.
  assert (Hone : one_timer (run reloadDebounceMs absoluteOutDir evs (init patterns))).
  { apply one_timer_run. by left. }
  assert (Hps : ignoreWatching (run reloadDebounceMs absoluteOutDir evs (init patterns))
                = patterns).
  { by rewrite stateless_kept. }
  split.
  - destruct Hone as [->|(h & due & -> & _)]; cbn; lia.
  - apply burst_fires_once; rewrite ?Hps; done.
Qed.

Lemma only_output_step rd outDir e s :
  only_output outDir e = true →
  timeouts s = [] →
  timeouts (step rd outDir e s) = []
  ∧ rebuild (step rd outDir e s)
    = Rebuild.run (loop_events [e]) (rebuild s).
Proof.
  intros He Ht. destruct e as [file|ms|e']; cbn [step only_output] in *.
  - unfold on_all.
    destruct (Index.shouldIgnorePath file (ignoreWatching s)) as [ignored ps].
    rewrite He, orb_true_r. done.
  - by rewrite (advance_idle _ _ Ht).
  - done.
Qed.

(** X10.  The build cannot start itself again.  While no timeout is live
    and the only files that change lie under the output directory, whatever
    the ignore patterns are, no timeout is made and the rebuild cycle moves
    by its own events alone. *)
Theorem output_changes_schedule_nothing (reloadDebounceMs : option N)
    (absoluteOutDir : string) (evs : list Watch.Event) (s : Watch.State) :
  forallb (only_output absoluteOutDir) evs = true →
  timeouts s = [] →
  timeouts (run reloadDebounceMs absoluteOutDir evs s) = []
  ∧ rebuild (run reloadDebounceMs absoluteOutDir evs s)
    = Rebuild.run (loop_events evs) (rebuild s).
Proof.
  revert s. induction evs as [|e evs IH]; intros s Hall Ht; [done|].
  cbn [forallb] in Hall. apply andb_prop in Hall as [He Hall].
  destruct (only_output_step reloadDebounceMs absoluteOutDir e s He Ht)
    as [Ht1 Hr1].
  cbn [run foldl].
  fold (run reloadDebounceMs absoluteOutDir evs
          (step reloadDebounceMs absoluteOutDir e s)).
  destruct (IH _ Hall Ht1) as [Ht2 Hr2]. split; [done|].
  rewrite Hr2, Hr1.
  replace (loop_events (e :: evs)) with (loop_events [e] ++ loop_events evs)
    by (unfold loop_events; cbn [flat_map]; by rewrite app_nil_r).
  by rewrite run_app.
Qed.

End Debounce.

(** X9 at three changes 10 ms apart under the default delay of 80 ms *)
Lemma debounce_coalesces_witness :
  Rebuild.builds
    (Watch.rebuild
       (Watch.run (pf := Sample.platform true) None Example.out_dir
          (Watch.burst "/proj/app/a.ts" [(10%N, "/proj/app/b.ts"); (10%N, "/proj/app/a.ts")]
             80%N)
          (Watch.run (pf := Sample.platform true) None Example.out_dir []
             (Watch.init [Index.PRegExp (Sample.literal_regexp ".git" false)]))))
  = 1.
Proof.
  destruct (debounce_coalesces (pf := Sample.platform true) None Example.out_dir
              [Index.PRegExp (Sample.literal_regexp ".git" false)] []
              "/proj/app/a.ts" [(10%N, "/proj/app/b.ts"); (10%N, "/proj/app/a.ts")]
              80%N eq_refl eq_refl) as (_ & Hr & _).
  - repeat constructor.
  - vm_compute. discriminate.
  - by rewrite Hr.
Defined.

(** X10 at the build writing its artifact while it runs *)
Lemma output_changes_schedule_nothing_witness :
  Rebuild.builds
    (Watch.rebuild
       (Watch.run (pf := Sample.platform true) None Example.out_dir
          [Watch.Loop Rebuild.Call; Watch.Change Example.artifact;
           Watch.Advance 200%N; Watch.Loop (Rebuild.Settle 0 Rebuild.Resolved true);
           Watch.Advance 200%N]
          (Watch.init [])))
  = 1.
Proof.
  destruct (output_changes_schedule_nothing (pf := Sample.platform true) None
              Example.out_dir
              [Watch.Loop Rebuild.Call; Watch.Change Example.artifact;
               Watch.Advance 200%N;
               Watch.Loop (Rebuild.Settle 0 Rebuild.Resolved true);
               Watch.Advance 200%N]
              (Watch.init []) eq_refl eq_refl) as [_ Hr].
  by rewrite Hr.
Defined.

(** ** The plugin's configuration *)

Lemma includes_index s sub :
  Js.includes s sub = true
  ↔ ∃ j, j ≤ String.length s ∧ Js.startsWith (Js.slice s j) sub = true.
Proof.
  induction s as [|c s IH].
  - cbn [Js.includes]. rewrite orb_false_r. split.
    + intros H. exists 0. split; [done|]. exact H.
    + intros (j & Hj & H). cbn in Hj. assert (j = 0) as -> by lia. exact H.
  - rewrite includes_cons, orb_true_iff, IH. split.
    + intros [H|(j & Hj & H)].
      * exists 0. split; [cbn; lia | exact H].
      * exists (S j). split; [cbn; lia | exact H].
    + intros ([|j] & Hj & H); [by left|]. right. exists j.
      split; [cbn in Hj; lia | exact H].
Qed.

Lemma includes_app pre sub post : Js.includes (pre +:+ sub +:+ post) sub = true.
Proof.
  apply includes_index. exists (String.length pre). split.
  - rewrite string_length_app. lia.
  - rewrite slice_app. apply startsWith_app.
Qed.

Lemma slice_split s j :
  j ≤ String.length s → ∃ pre, s = pre +:+ Js.slice s j ∧ String.length pre = j.
Proof.
  revert s. induction j as [|j IH]; intros s Hj.
  - exists "". split; [by destruct s | done].
  - destruct s as [|c s]; [cbn in Hj; lia|].
    destruct (IH s) as (pre & Hs & Hl); [cbn in Hj; lia|].
    exists (String c pre). split; [|cbn; by rewrite Hl].
    rewrite string_app_cons. cbn [Js.slice]. by rewrite <- Hs.
Qed.

Lemma includes_inv s sub :
  Js.includes s sub = true → ∃ pre post, s = pre +:+ sub +:+ post.
Proof.
  intros (j & Hj & Hs)%includes_index.
  destruct (slice_split s j Hj) as (pre & Hpre & _).
  apply startsWith_inv in Hs as [post Hpost].
  exists pre, post. by rewrite <- Hpost.
Qed.

Lemma includes_trans s a b :
  Js.includes s a = true → Js.includes a b = true → Js.includes s b = true.
Proof.
  intros (pre & post & ->)%includes_inv (pre' & post' & ->)%includes_inv.
  rewrite !string_app_assoc, <- (string_app_assoc pre pre').
  apply includes_app.
Qed.

Section Configuration.
Context {pf : Platform}.

(** A literal pattern answers whether the text occurs in the target *)
Lemma literal_test text target :
  Index.matchPattern (Plugin.literal text) target
  = (Js.includes target text, Plugin.literal text).
Proof.
  unfold Plugin.literal, Index.matchPattern, Index.RegExp_test.
  unfold Sample.literal_regexp at 1 2 3 4.
  cbn [Index.re_global Index.re_sticky Index.re_matcher Index.re_lastIndex orb].
  rewrite Nat.sub_0_r.
  pose proof (RegExp_search_some (Sample.literal_at text) target
                (S (String.length target)) 0) as Hs.
  destruct (Index.RegExp_search _ _ _ _ _) as [e|].
  - f_equal. symmetry. apply includes_index.
    destruct (proj1 Hs) as (j & e' & _ & Hj & Hm); [by eexists|].
    exists j. split; [lia|]. unfold Sample.literal_at in Hm.
    by destruct (Js.startsWith (Js.slice target j) text).
  - f_equal. symmetry. apply not_true_is_false.
    intros (j & Hj & Hm)%includes_index.
    destruct (proj2 Hs) as [? [=]]. exists j, (j + String.length text).
    split; [lia|]. split; [lia|]. unfold Sample.literal_at. by rewrite Hm.
Qed.

(** X11.  With the default ignore list the watcher ignores exactly the
    files whose normalized path contains [.wrangler], [.mf] or [.git]
    anywhere in it, and the test leaves the list as it is.  The default
    output directory is covered: a path that contains [.mf/cf-honox-vite]
    is ignored. *)
Theorem default_ignoreWatching_spec (file : string) :
  Index.shouldIgnorePath file Plugin.defaultIgnoreWatching
  = (Js.includes (normalizePath file) ".wrangler"
     || Js.includes (normalizePath file) ".mf"
     || Js.includes (normalizePath file) ".git",
     Plugin.defaultIgnoreWatching)
  ∧ (Js.includes (normalizePath file) Plugin.defaultOutDir = true →
     fst (Index.shouldIgnorePath file Plugin.defaultIgnoreWatching) = true).
Proof.
  assert (Heq : Index.shouldIgnorePath file Plugin.defaultIgnoreWatching
                = (Js.includes (normalizePath file) ".wrangler"
                   || Js.includes (normalizePath file) ".mf"
                   || Js.includes (normalizePath file) ".git",
                   Plugin.defaultIgnoreWatching)).
  { unfold Index.shouldIgnorePath, Plugin.defaultIgnoreWatching.
    cbn [Index.some_matchPattern]. rewrite !literal_test.
    destruct (Js.includes (normalizePath file) ".wrangler"); [done|].
    destruct (Js.includes (normalizePath file) ".mf"); [done|].
    by destruct (Js.includes (normalizePath file) ".git"). }
  split; [exact Heq|]. intros Hout. rewrite Heq. cbn [fst].
  rewrite (includes_trans _ Plugin.defaultOutDir ".mf" Hout) by by vm_compute.
  by rewrite orb_true_r.
Qed.

Lemma some_matchPattern_last ps p target :
  fst (Index.matchPattern p target) = true →
  fst (Index.some_matchPattern (ps ++ [p]) target) = true.
Proof.
  intros Hp. induction ps as [|q ps IH].
  - cbn [app Index.some_matchPattern].
    destruct (Index.matchPattern p target) as [b p']. cbn in Hp. by subst b.
  - cbn [app Index.some_matchPattern].
    destruct (Index.matchPattern q target) as [[] q']; [done|].
    destruct (Index.some_matchPattern (ps ++ [p]) target) as [b ps'].
    exact IH.
Qed.

(** X12.  Whatever the user gave as [exclude] to the dev server of honox,
    patterns with flags included, the list [cfHonoxVite] hands to it keeps
    the given patterns in their order, ends with [/.*/], and matches every
    URL. *)
Theorem disabled_exclude_matches_all (exclude : Plugin.OneOrMany Index.Pattern)
    (target : string) :
  fst (Index.some_matchPattern (Plugin.disabled_exclude exclude) target) = true
  ∧ Plugin.disabled_exclude exclude
    = match exclude with
      | Plugin.Undefined => []
      | Plugin.One p => if Plugin.pattern_truthy p then [p] else []
      | Plugin.Many ps => ps
      end ++ [Index.PRegExp Plugin.any_line].
Proof.
  split; [|by destruct exclude].
  unfold Plugin.disabled_exclude. apply some_matchPattern_last.
  unfold Index.matchPattern, Index.RegExp_test. cbn.
  by destruct (String.length target).
Qed.

End Configuration.

Lemma Set_add_NoDup x set : NoDup set → NoDup (Plugin.Set_add x set).
Proof.
  intros Hnd. unfold Plugin.Set_add. case_bool_decide as Hx; [done|].
  apply NoDup_app. split; [done|]. split; [|apply NoDup_singleton].
  intros y Hy ->%list_elem_of_singleton. done.
Qed.

Lemma Set_add_elem x y set : y ∈ Plugin.Set_add x set ↔ y = x ∨ y ∈ set.
Proof.
  unfold Plugin.Set_add. case_bool_decide as Hx.
  - split; [by right | intros [->|?]; done].
  - rewrite elem_of_app, list_elem_of_singleton. tauto.
Qed.

Lemma external_strings values : ∀ set,
  NoDup set →
  let set' :=
    foldl
      (fun set value =>
         match value with
         | Plugin.ExtString s => Plugin.Set_add s set
         | Plugin.ExtTrue => set
         end)
      set values in
  NoDup set'
  ∧ ∀ s, s ∈ set' ↔ s ∈ set ∨ Plugin.ExtString s ∈ values.
Proof.
  induction values as [|v values IH]; intros set Hnd; cbn [foldl].
  - split; [done|]. intros s. rewrite elem_of_nil. tauto.
  - destruct v as [x|].
    + destruct (IH (Plugin.Set_add x set) (Set_add_NoDup x set Hnd)) as [Hnd' Hin].
      split; [exact Hnd'|]. intros s. rewrite Hin, Set_add_elem, elem_of_cons.
      split; [intros [[->|?]|?]; auto | intros [?|[[= ->]|?]]; auto].
    + destruct (IH set Hnd) as [Hnd' Hin].
      split; [exact Hnd'|]. intros s. rewrite Hin, elem_of_cons.
      split; [intros [?|?]; auto | intros [?|[[=]|?]]; auto].
Qed.

(** X13.  The worker build treats [cloudflare:workers] as external whatever
    the project configured, and with it exactly the strings of
    [config.ssr.external], each once ([external: true] adds none).  The
    plugin itself is not among the plugins of the worker build, so the build
    does not call it again, and the other plugins stay in their order.  The
    output is one ES module named [worker.mjs], whatever the project's
    output options say; an array of output options is dropped. *)
Theorem buildWorkerConfig_spec {P V : Type} (name : P → string) (str : string → V)
    (external : Plugin.OneOrMany Plugin.ExternalValue) (plugins : list P)
    (output : Plugin.OneOrMany (gmap string V)) :
  NoDup (Plugin.ssrExternal external)
  ∧ (∀ s, s ∈ Plugin.ssrExternal external
          ↔ s = "cloudflare:workers"
            ∨ Plugin.ExtString s ∈ Plugin.coerceArray Plugin.external_truthy external)
  ∧ (∀ p, p ∈ Plugin.worker_plugins name plugins
          ↔ p ∈ plugins ∧ name p ≠ Plugin.pluginName)
  ∧ Plugin.worker_plugins name plugins `sublist_of` plugins
  ∧ Plugin.rollupOutput str output !! "entryFileNames" = Some (str "worker.mjs")
  ∧ Plugin.rollupOutput str output !! "format" = Some (str "es")
  ∧ (∀ k, k ≠ "entryFileNames" → k ≠ "format" →
          Plugin.rollupOutput str output !! k
          = match output with
            | Plugin.One o => o !! k
            | _ => None
            end).
Proof.
  destruct (external_strings (Plugin.coerceArray Plugin.external_truthy external)
              [] (NoDup_nil_2)) as [Hnd Hin].
  cbv zeta in Hnd, Hin.
  split; [by apply Set_add_NoDup|]. split.
  { intros s. unfold Plugin.ssrExternal. rewrite Set_add_elem, Hin, elem_of_nil.
    tauto. }
  split.
  { intros p. unfold Plugin.worker_plugins.
    rewrite list_elem_of_In, filter_In, <- list_elem_of_In, negb_true_iff.
    by rewrite String.eqb_neq. }
  split.
  { unfold Plugin.worker_plugins. induction plugins as [|p plugins IH]; [done|].
    cbn [List.filter]. destruct (negb _).
    - by apply sublist_skip.
    - by apply sublist_cons. }
  unfold Plugin.rollupOutput. split; [|split].
  - rewrite lookup_insert_ne by done. by rewrite lookup_insert_eq.
  - by rewrite lookup_insert_eq.
  - intros k Hk1 Hk2. rewrite !lookup_insert_ne by done.
    by destruct output.
Qed.

(** X11 at the artifact of the default output directory *)
Lemma default_ignoreWatching_spec_witness :
  fst (Index.shouldIgnorePath (pf := Sample.platform true)
         "/proj/.mf/cf-honox-vite/worker.mjs" Plugin.defaultIgnoreWatching) = true
  ∧ fst (Index.shouldIgnorePath (pf := Sample.platform true)
           "/proj/app/server.ts" Plugin.defaultIgnoreWatching) = false.
Proof.
  destruct (default_ignoreWatching_spec (pf := Sample.platform true)
              "/proj/.mf/cf-honox-vite/worker.mjs") as [_ Hout].
  destruct (default_ignoreWatching_spec (pf := Sample.platform true)
              "/proj/app/server.ts") as [Heq _].
  split; [apply Hout; reflexivity | by rewrite Heq].
Defined.
